(** * Role-check pipeline with bounded retry (run_role_check_fallback_1.5.py)

    A shallow embedding of the script's two functions, [analyze_file] and
    [main], together with the module-level credential check.  The external
    collaborators (the chat-completions client, [json.loads], the process
    environment and the input directory) are parameters of the development;
    everything the script itself does is a definition below. *)

From Stdlib Require Import ZArith String Ascii DecimalString.
From Stdlib Require Import Floats.SpecFloat.
From stdpp Require Import base option gmap strings list sorting.

Open Scope string_scope.
Open Scope Z_scope.

(** ** Values *)

(** What [json.loads] can return.  A JSON object becomes a Python dict:
    string keys, one value per key. *)
#[warnings="-register-all"]
Inductive json : Type :=
| JNull
| JBool (b : bool)
| JInt (n : Z)
| JFloat (f : spec_float)
| JStr (s : string)
| JArr (l : list json)
| JObj (d : gmap string json).

(** A result record is a dict from field names to JSON values. *)
Abbreviation record := (gmap string json).

(** [resp.usage] of a completion: three token counts. *)
Record Usage : Type := mkUsage {
  prompt_tokens : Z;
  completion_tokens : Z;
  total_tokens : Z
}.

(** The parts of a completion object the script reads: [resp.usage], which
    the client library types as optional, and [resp.choices], each choice
    carrying [message.content], optional as well. *)
Record Response : Type := mkResponse {
  resp_usage : option Usage;
  resp_choices : list (option string)
}.

(** An instance of [Exception]: its class name and [str(e)]. *)
Record pyexc : Type := mkExc {
  exc_class : string;
  exc_msg : string
}.

(** What a [raise] can carry here.  [SystemExit] derives from
    [BaseException], so [except Exception] does not catch it. *)
Inductive exn : Type :=
| Exception (e : pyexc)
| SystemExit (msg : string).

(** The request [client.chat.completions.create] is given.  The sampling
    temperature (0.0) and the response format (json_object) are constants
    of the call and are not represented. *)
Record Request : Type := mkRequest {
  req_model : string;
  req_system : string;
  req_user : string
}.

(** ** Observable effects *)

Inductive event : Type :=
| EvCreate (idx : nat) (req : Request)
| EvPrint (line : string)
| EvPrintJson (v : json)
| EvSleep (secs : Z)
| EvWrite (path : string) (doc : json).

(** The world threaded through the script: how many requests have been sent
    to the service so far, and everything observable that has happened, in
    order. *)
Record World : Type := mkWorld {
  calls : nat;
  log : list event
}.

Definition Py (A : Type) : Type := World → (exn + A) * World.

Definition py_ret {A} (a : A) : Py A := λ w, (inr a, w).

Definition py_bind {A B} (f : A → Py B) (m : Py A) : Py B :=
  λ w, match m w with
       | (inl e, w') => (inl e, w')
       | (inr a, w') => f a w'
       end.

#[global] Instance Py_ret : MRet Py := @py_ret.
#[global] Instance Py_bind : MBind Py := @py_bind.

Definition raise {A} (e : exn) : Py A := λ w, (inl e, w).

Definition emit (ev : event) : Py unit :=
  λ w, (inr tt, {| calls := calls w; log := log w ++ [ev] |}).

(** [try: body  except Exception as e: handler e]. *)
Definition try_except {A} (body : Py A) (handler : pyexc → Py A) : Py A :=
  λ w, match body w with
       | (inl (Exception e), w') => handler e w'
       | r => r
       end.

Definition print (line : string) : Py unit := emit (EvPrint line).
Definition sleep (secs : Z) : Py unit := emit (EvSleep secs).

(** ** Text helpers *)

Definition nl : string := String "010" "".
Definition dq : string := String "034" "".

(** Decimal rendering of a Python int inside an f-string. *)
Definition str_int (z : Z) : string := NilZero.string_of_int (Z.to_int z).

Definition unlines (ls : list string) : string :=
  foldr (λ l acc, l ++ nl ++ acc) "" ls.

(** ** The classification contract *)

(** The policy text sent as the system message of every request. *)
Definition SYSTEM_PROMPT : string := unlines [
  "You are a strict document-based classifier.";
  "Use ONLY the text provided. Do not assume facts not stated.";
  "Your task: determine whether the person is a BAKER, based on evidence in the text.";
  "";
  "Return JSON ONLY matching the schema:";
  "{";
  "  " ++ dq ++ "name" ++ dq ++ ": string,";
  "  " ++ dq ++ "stated_occupation" ++ dq ++ ": string,";
  "  " ++ dq ++ "baker_status" ++ dq ++ ": " ++ dq ++ "SUPPORTED" ++ dq ++ " | "
       ++ dq ++ "NOT_FOUND" ++ dq ++ " | " ++ dq ++ "CONFLICT" ++ dq ++ " | "
       ++ dq ++ "ERROR" ++ dq ++ ",";
  "  " ++ dq ++ "evidence" ++ dq ++ ": [string, ...],";
  "  " ++ dq ++ "reason" ++ dq ++ ": string";
  "}";
  "";
  "Rules:";
  "- SUPPORTED: the document supports that they are a baker (title and/or duties clearly involve baking).";
  "- CONFLICT: the document states " ++ dq ++ "baker" ++ dq
       ++ " (or equivalent) BUT the duties contradict (e.g., no baking tasks; different role).";
  "- ERROR: processing failure occurred outside the document analysis (e.g., API or parsing issue).";
  "- NOT_FOUND: insufficient evidence they are a baker (even if food-related).";
  "- evidence must be 1-3 short verbatim snippets from the document that justify the status.";
  "- If name or occupation is not explicitly present, use " ++ dq ++ dq ++ " for those fields."
].

(** [required] of [analyze_file]: the five keys a response must carry. *)
Definition required : gset string :=
  {[ "name"; "stated_occupation"; "baker_status"; "evidence"; "reason" ]}.

(** ** Process environment *)

(** What the script reads from outside before and while it runs: the two
    environment variables, the parsed command line, and the input
    directory.  [dir_glob_txt] lists the directory's .txt entries in the
    order the operating system enumerates them, each as [fp.name] with the
    text [fp.read_text] yields for it. *)
Record Environ : Type := mkEnviron {
  OPENAI_MODEL : option string;
  OPENAI_API_KEY : option string;
  arg_input : string;
  arg_output : string;
  dir_exists : bool;
  dir_glob_txt : list (string * string);
  dir_resolved : string;
  out_resolved : string
}.

(** Class names and messages of the exceptions the interpreter itself
    raises inside the [try] block. *)
Definition AttributeError (ty attr : string) : pyexc :=
  {| exc_class := "AttributeError";
     exc_msg := "'" ++ ty ++ "' object has no attribute '" ++ attr ++ "'" |}.

Definition IndexError_list : pyexc :=
  {| exc_class := "IndexError"; exc_msg := "list index out of range" |}.

Definition TypeError_loads_None : pyexc :=
  {| exc_class := "TypeError";
     exc_msg := "the JSON object must be str, bytes or bytearray, not NoneType" |}.

Definition TypeError_unpack_None : pyexc :=
  {| exc_class := "TypeError";
     exc_msg := "cannot unpack non-iterable NoneType object" |}.

Definition ValueError (msg : string) : pyexc :=
  {| exc_class := "ValueError"; exc_msg := msg |}.

(** [type(v).__name__] of a parsed JSON value. *)
Definition py_type (v : json) : string :=
  match v with
  | JNull => "NoneType"
  | JBool _ => "bool"
  | JInt _ => "int"
  | JFloat _ => "float"
  | JStr _ => "str"
  | JArr _ => "list"
  | JObj _ => "dict"
  end.

(** ** The script *)

(** Order in which [sorted] arranges the paths of one directory: by file
    name, code point by code point (POSIX paths). *)
Definition name_le (a b : string) : Prop := String.leb a b = true.
Definition path_le (a b : string * string) : Prop := name_le a.1 b.1.

#[global] Instance name_le_dec a b : Decision (name_le a b).
Proof. unfold name_le. apply _. Defined.
#[global] Instance path_le_dec a b : Decision (path_le a b).
Proof. unfold path_le. apply _. Defined.

(** [sorted(SAMPLE_DIR.glob(...))]. *)
Definition sorted (files : list (string * string)) : list (string * string) :=
  merge_sort path_le files.

(** Running totals of the driver. *)
Record Totals : Type := mkTotals {
  total_prompt : Z;
  total_completion : Z;
  total_all : Z
}.

Definition add_usage (t : Totals) (u : Usage) : Totals :=
  {| total_prompt := total_prompt t + prompt_tokens u;
     total_completion := total_completion t + completion_tokens u;
     total_all := total_all t + total_tokens u |}.

Section Script.

(** The service: what the [n]-th request of the run (counted from 0)
    comes back with, an exception or a completion. *)
Variable client_create : nat → Request → pyexc + Response.

(** [json.loads] on a string. *)
Variable json_loads : string → pyexc + json.

Variable env : Environ.

(** [MODEL = os.getenv("OPENAI_MODEL", "gpt-4o-mini")]. *)
Definition MODEL : string := default "gpt-4o-mini" (OPENAI_MODEL env).

Definition request (text : string) : Request :=
  {| req_model := MODEL;
     req_system := SYSTEM_PROMPT;
     req_user := "DOCUMENT:" ++ nl ++ text |}.

(** [client.chat.completions.create(...)]: the request goes out, the call
    counter advances, and the service's answer comes back or is raised. *)
Definition create (req : Request) : Py Response :=
  λ w, let w' := {| calls := S (calls w);
                    log := log w ++ [EvCreate (calls w) req] |} in
       match client_create (calls w) req with
       | inl e => (inl (Exception e), w')
       | inr resp => (inr resp, w')
       end.

(** The record the [except] branch builds on the last attempt. *)
Definition error_record (e : pyexc) : record :=
  <[ "name" := JStr "" ]>
  (<[ "stated_occupation" := JStr "" ]>
  (<[ "baker_status" := JStr "ERROR" ]>
  (<[ "evidence" := JArr [] ]>
  (<[ "reason" := JStr ("Processing failure: " ++ exc_msg e) ]> ∅)))).

(** The body of the [try] block, up to its [return result, usage]. *)
Definition attempt_body (text label : string) : Py (record * Usage) :=
  resp ← create (request text);
  usage ← match resp_usage resp with
          | Some u => mret u
          | None => raise (Exception (AttributeError "NoneType" "prompt_tokens"))
          end;
  _ ← print ("[tokens:" ++ label ++ "] prompt=" ++ str_int (prompt_tokens usage)
             ++ " completion=" ++ str_int (completion_tokens usage)
             ++ " total=" ++ str_int (total_tokens usage));
  content ← match resp_choices resp with
            | c :: _ => mret c
            | [] => raise (Exception IndexError_list)
            end;
  result ← match content with
           | Some s => match json_loads s with
                       | inl e => raise (Exception e)
                       | inr v => mret v
                       end
           | None => raise (Exception TypeError_loads_None)
           end;
  match result with
  | JObj d =>
      if bool_decide (required ⊆ dom d)
      then mret (d, usage)
      else raise (Exception (ValueError "Invalid schema from model"))
  | v => raise (Exception (AttributeError (py_type v) "keys"))
  end.

(** [for attempt in attempts: try ... except ...]; running off the end of
    the loop is the function's implicit [return None]. *)
Fixpoint analyze_loop (attempts : list nat) (text label : string)
    : Py (option (record * option Usage)) :=
  match attempts with
  | [] => mret None
  | attempt :: rest =>
      try_except
        ('(result, usage) ← attempt_body text label;
         mret (Some (result, Some usage)))
        (λ e,
           if Nat.eqb attempt 1
           then mret (Some (error_record e, None))
           else _ ← sleep 1; analyze_loop rest text label)
  end.

Definition analyze_file (text label : string)
    : Py (option (record * option Usage)) :=
  analyze_loop (seq 0 2) text label.

(** The batch loop of [main], with the accumulators it updates. *)
Fixpoint batch_loop (files : list (string * string))
    (results : list record) (tot : Totals) : Py (list record * Totals) :=
  match files with
  | [] => mret (results, tot)
  | fp :: rest =>
      let text := fp.2 in
      r ← analyze_file text fp.1;
      match r with
      | None => raise (Exception TypeError_unpack_None)
      | Some (result, usage) =>
          let tot' := match usage with
                      | Some u => add_usage tot u
                      | None => tot
                      end in
          let result' := <[ "_file" := JStr fp.1 ]> result in
          let results' := (results ++ [result'])%list in
          _ ← print (nl ++ "=== " ++ fp.1 ++ " ===");
          _ ← emit (EvPrintJson (JObj result'));
          batch_loop rest results' tot'
      end
  end.

Definition zero_totals : Totals :=
  {| total_prompt := 0; total_completion := 0; total_all := 0 |}.

Definition main : Py (list record * Totals) :=
  if negb (dir_exists env)
  then raise (SystemExit ("Missing folder: " ++ dir_resolved env))
  else
    let files := sorted (dir_glob_txt env) in
    match files with
    | [] => raise (SystemExit ("No .txt files found in " ++ dir_resolved env))
    | _ :: _ =>
        '(results, tot) ← batch_loop files [] zero_totals;
        _ ← emit (EvWrite (arg_output env) (JArr (JObj <$> results)));
        _ ← print (nl ++ "Saved: " ++ out_resolved env);
        _ ← print (nl ++ "TOTAL TOKENS: prompt=" ++ str_int (total_prompt tot)
                   ++ " completion=" ++ str_int (total_completion tot)
                   ++ " total=" ++ str_int (total_all tot));
        mret (results, tot)
    end.

(** [if not API_KEY]: unset or empty. *)
Definition api_key_missing : bool :=
  match OPENAI_API_KEY env with
  | None => true
  | Some k => bool_decide (k = "")
  end.

(** The script from its first line: the credential check at module level,
    then [main()]. *)
Definition script : Py (list record * Totals) :=
  if api_key_missing
  then raise (SystemExit
    "Missing OPENAI_API_KEY. Put it in a .env file or set it in your environment.")
  else main.

End Script.


(** ** Specification vocabulary *)

(** The line [analyze_file] prints after a completion with usage. *)
Definition tokens_line (label : string) (u : Usage) : string :=
  "[tokens:" ++ label ++ "] prompt=" ++ str_int (prompt_tokens u)
    ++ " completion=" ++ str_int (completion_tokens u)
    ++ " total=" ++ str_int (total_tokens u).

(** What an attempt prints, given what the service answered. *)
Definition attempt_prints (label : string) (out : pyexc + Response) : list event :=
  match out with
  | inr resp =>
      match resp_usage resp with
      | Some u => [EvPrint (tokens_line label u)]
      | None => []
      end
  | inl _ => []
  end.

Section Attempts.

Variable client_create : nat → Request → pyexc + Response.
Variable json_loads : string → pyexc + json.
Variable env : Environ.

(** An attempt succeeds on [out] with record [d] and usage [u]: the call
    returned a completion that carries usage, its first choice has
    content, the content parses to an object, and the object has the five
    required keys. *)
Inductive accepted (out : pyexc + Response) (d : record) (u : Usage) : Prop :=
| Accepted (resp : Response) (s : string) (rest : list (option string)) :
    out = inr resp →
    resp_usage resp = Some u →
    resp_choices resp = Some s :: rest →
    json_loads s = inr (JObj d) →
    required ⊆ dom d →
    accepted out d u.

(** An attempt fails on [out] with exception [e], one constructor per way
    the [try] block can be left by an exception. *)
Inductive rejected (out : pyexc + Response) : pyexc → Prop :=
| Rej_call_raised e :
    out = inl e →
    rejected out e
| Rej_no_usage resp :
    out = inr resp →
    resp_usage resp = None →
    rejected out (AttributeError "NoneType" "prompt_tokens")
| Rej_no_choice resp u :
    out = inr resp →
    resp_usage resp = Some u →
    resp_choices resp = [] →
    rejected out IndexError_list
| Rej_no_content resp u rest :
    out = inr resp →
    resp_usage resp = Some u →
    resp_choices resp = None :: rest →
    rejected out TypeError_loads_None
| Rej_parse_failure resp u s rest e :
    out = inr resp →
    resp_usage resp = Some u →
    resp_choices resp = Some s :: rest →
    json_loads s = inl e →
    rejected out e
| Rej_not_an_object resp u s rest v :
    out = inr resp →
    resp_usage resp = Some u →
    resp_choices resp = Some s :: rest →
    json_loads s = inr v →
    (∀ d, v ≠ JObj d) →
    rejected out (AttributeError (py_type v) "keys")
| Rej_missing_keys resp u s rest d :
    out = inr resp →
    resp_usage resp = Some u →
    resp_choices resp = Some s :: rest →
    json_loads s = inr (JObj d) →
    ¬ required ⊆ dom d →
    rejected out (ValueError "Invalid schema from model").

(** The world after one attempt that started in [w]: one more request
    sent, and the attempt's prints. *)
Definition after_attempt (text label : string) (w : World) : World :=
  {| calls := S (calls w);
     log := log w ++ EvCreate (calls w) (request env text)
              :: attempt_prints label (client_create (calls w) (request env text)) |}.

(** The world after the fixed pause between the attempts. *)
Definition after_delay (w : World) : World :=
  {| calls := calls w; log := log w ++ [EvSleep 1] |}.

(** The world after the driver has printed a document's record. *)
Definition after_report (name : string) (r : record) (w : World) : World :=
  {| calls := calls w;
     log := log w ++ [EvPrint (nl ++ "=== " ++ name ++ " ===");
                      EvPrintJson (JObj (<[ "_file" := JStr name ]> r))] |}.

(** A batch seen from outside: [batch_run files w outs w'] holds when
    [analyze_file], called for each document of [files] in turn from
    world [w], returned the pairs [outs] and left world [w']. *)
Inductive batch_run :
    list (string * string) → World → list (record * option Usage) → World → Prop :=
| batch_run_nil w :
    batch_run [] w [] w
| batch_run_cons name text rest w r u w1 outs w2 :
    analyze_file client_create json_loads env text name w = (inr (Some (r, u)), w1) →
    batch_run rest (after_report name r w1) outs w2 →
    batch_run ((name, text) :: rest) w ((r, u) :: outs) w2.

End Attempts.

(** The report the driver builds from what [analyze_file] returned for each
    document: the returned record with the document's name under "_file". *)
Definition report_of (files : list (string * string))
    (outs : list (record * option Usage)) : list record :=
  zip_with (λ fp out, <[ "_file" := JStr fp.1 ]> out.1) files outs.

(** The world after the driver's closing lines: the report written, then
    the two summary prints. *)
Definition after_save (env : Environ) (results : list record) (tot : Totals)
    (w : World) : World :=
  {| calls := calls w;
     log := log w ++
       [EvWrite (arg_output env) (JArr (JObj <$> results));
        EvPrint (nl ++ "Saved: " ++ out_resolved env);
        EvPrint (nl ++ "TOTAL TOKENS: prompt=" ++ str_int (total_prompt tot)
                 ++ " completion=" ++ str_int (total_completion tot)
                 ++ " total=" ++ str_int (total_all tot))] |}.

(** The usage of the calls that succeeded, added up. *)
Definition sum_usage (tot : Totals) (outs : list (record * option Usage)) : Totals :=
  foldl add_usage tot (omap snd outs).

(** A configuration error: no credentials, no input directory, or no .txt
    document in it. *)
Definition config_error (env : Environ) : bool :=
  api_key_missing env || negb (dir_exists env) || bool_decide (dir_glob_txt env = []).

(** The schema of section 3 of the specification, as a check on a record. *)
Definition statuses : list string := ["SUPPORTED"; "NOT_FOUND"; "CONFLICT"; "ERROR"].
Definition model_statuses : list string := ["SUPPORTED"; "NOT_FOUND"; "CONFLICT"].

Definition is_string (v : json) : bool :=
  match v with JStr _ => true | _ => false end.

Definition status_in (allowed : list string) (r : record) : bool :=
  match r !! "baker_status" with
  | Some (JStr s) => bool_decide (s ∈ allowed)
  | _ => false
  end.

Definition evidence_ok (r : record) : bool :=
  match r !! "evidence" with
  | Some (JArr l) => bool_decide (length l ≤ 3)%nat && forallb is_string l
  | _ => false
  end.

Definition field_is_string (k : string) (r : record) : bool :=
  match r !! k with
  | Some v => is_string v
  | None => false
  end.

Definition well_shaped (r : record) : bool :=
  field_is_string "name" r && field_is_string "stated_occupation" r
  && status_in statuses r && evidence_ok r && field_is_string "reason" r.

(** The part of a log that the retry state machine is about: requests to
    the service and pauses. *)
Inductive step : Type :=
| Call
| Delay (secs : Z).

Definition control (ev : event) : option step :=
  match ev with
  | EvCreate _ _ => Some Call
  | EvSleep secs => Some (Delay secs)
  | _ => None
  end.

Definition is_write (ev : event) : bool :=
  match ev with
  | EvWrite _ _ => true
  | _ => false
  end.

(** The report files written, in order. *)
Definition writes (l : list event) : list (string * json) :=
  omap (λ ev, match ev with EvWrite p doc => Some (p, doc) | _ => None end) l.



(** ** Concrete services and documents *)

Module Fixtures.

Definition jstr (s : string) : string := dq ++ s ++ dq.
Definition jfield (k v : string) : string := jstr k ++ ": " ++ v.

Definition alice_text : string :=
  "{" ++ jfield "name" (jstr "Alice") ++ ", "
      ++ jfield "stated_occupation" (jstr "baker") ++ ", "
      ++ jfield "baker_status" (jstr "SUPPORTED") ++ ", "
      ++ jfield "evidence" ("[" ++ jstr "she bakes bread daily" ++ "]") ++ ", "
      ++ jfield "reason" (jstr "title and duties involve baking") ++ "}".

Definition alice_value : record :=
  <[ "name" := JStr "Alice" ]>
  (<[ "stated_occupation" := JStr "baker" ]>
  (<[ "baker_status" := JStr "SUPPORTED" ]>
  (<[ "evidence" := JArr [JStr "she bakes bread daily"] ]>
  (<[ "reason" := JStr "title and duties involve baking" ]> ∅)))).

(** The same object without its reason key. *)
Definition no_reason_text : string :=
  "{" ++ jfield "name" (jstr "Alice") ++ ", "
      ++ jfield "stated_occupation" (jstr "baker") ++ ", "
      ++ jfield "baker_status" (jstr "SUPPORTED") ++ ", "
      ++ jfield "evidence" ("[" ++ jstr "she bakes bread daily" ++ "]") ++ "}".

Definition no_reason_value : record :=
  <[ "name" := JStr "Alice" ]>
  (<[ "stated_occupation" := JStr "baker" ]>
  (<[ "baker_status" := JStr "SUPPORTED" ]>
  (<[ "evidence" := JArr [JStr "she bakes bread daily"] ]> ∅))).

(** All five keys, none of the expected shapes, and one key more. *)
Definition odd_text : string :=
  "{" ++ jfield "name" "7" ++ ", "
      ++ jfield "stated_occupation" "null" ++ ", "
      ++ jfield "baker_status" (jstr "MAYBE") ++ ", "
      ++ jfield "evidence" ("[" ++ jstr "a" ++ ", " ++ jstr "b" ++ ", "
                                ++ jstr "c" ++ ", " ++ jstr "d" ++ "]") ++ ", "
      ++ jfield "reason" (jstr "") ++ ", "
      ++ jfield "confidence" "1" ++ "}".

Definition odd_value : record :=
  <[ "name" := JInt 7 ]>
  (<[ "stated_occupation" := JNull ]>
  (<[ "baker_status" := JStr "MAYBE" ]>
  (<[ "evidence" := JArr [JStr "a"; JStr "b"; JStr "c"; JStr "d"] ]>
  (<[ "reason" := JStr "" ]>
  (<[ "confidence" := JInt 1 ]> ∅))))).

(** A well-formed object in which the model itself chose ERROR. *)
Definition model_error_text : string :=
  "{" ++ jfield "name" (jstr "Bob") ++ ", "
      ++ jfield "stated_occupation" (jstr "") ++ ", "
      ++ jfield "baker_status" (jstr "ERROR") ++ ", "
      ++ jfield "evidence" "[]" ++ ", "
      ++ jfield "reason" (jstr "could not process the document") ++ "}".

Definition model_error_value : record :=
  <[ "name" := JStr "Bob" ]>
  (<[ "stated_occupation" := JStr "" ]>
  (<[ "baker_status" := JStr "ERROR" ]>
  (<[ "evidence" := JArr [] ]>
  (<[ "reason" := JStr "could not process the document" ]> ∅)))).

Definition JSONDecodeError : pyexc :=
  {| exc_class := "JSONDecodeError";
     exc_msg := "Expecting value: line 1 column 1 (char 0)" |}.

(** [json.loads] on the texts above; any other text used below is not
    JSON at all. *)
Definition loads (s : string) : pyexc + json :=
  if bool_decide (s = alice_text) then inr (JObj alice_value)
  else if bool_decide (s = no_reason_text) then inr (JObj no_reason_value)
  else if bool_decide (s = odd_text) then inr (JObj odd_value)
  else if bool_decide (s = model_error_text) then inr (JObj model_error_value)
  else inl JSONDecodeError.

Definition ConnectionError : pyexc :=
  {| exc_class := "APIConnectionError"; exc_msg := "Connection error." |}.

(** A service that answers the requests of a run from a list, and is
    unreachable once the list is used up. *)
Definition scripted (outs : list (pyexc + Response)) : nat → Request → pyexc + Response :=
  λ n _, default (inl ConnectionError) (outs !! n).

Definition usage_a : Usage :=
  {| prompt_tokens := 210; completion_tokens := 40; total_tokens := 250 |}.
Definition usage_b : Usage :=
  {| prompt_tokens := 205; completion_tokens := 35; total_tokens := 240 |}.

Definition reply (u : Usage) (content : string) : pyexc + Response :=
  inr {| resp_usage := Some u; resp_choices := [Some content] |}.

Definition env0 : Environ :=
  {| OPENAI_MODEL := None;
     OPENAI_API_KEY := Some "sk-test";
     arg_input := "sample_people";
     arg_output := "results.json";
     dir_exists := true;
     dir_glob_txt :=
       [("bob.txt", "Bob works as a baker but spends all day doing paperwork.");
        ("alice.txt", "Alice is a baker at the downtown bakery, she bakes bread daily.")];
     dir_resolved := "/srv/sample_people";
     out_resolved := "/srv/results.json" |}.

Definition w0 : World := {| calls := 0; log := [] |}.

Definition alice_doc : string :=
  "Alice is a baker at the downtown bakery, she bakes bread daily.".

(** A service that answers the first request with the object of odd shapes
    and is unreachable afterwards. *)
Definition odd_then_down : nat → Request → pyexc + Response :=
  scripted [reply usage_a odd_text; inl ConnectionError; inl ConnectionError].

(** A service that is unreachable twice, then answers without the reason
    key, then answers in full. *)
Definition down_then_up : nat → Request → pyexc + Response :=
  scripted [inl ConnectionError; inl ConnectionError;
            reply usage_a no_reason_text; reply usage_b alice_text].

End Fixtures.

(** ** Reading a log *)

(** The requests that went out, with their position in the run. *)
Definition sent (l : list event) : list (nat * Request) :=
  omap (λ ev, match ev with EvCreate i req => Some (i, req) | _ => None end) l.

(** The pauses taken, in seconds. *)
Definition pauses (l : list event) : list Z :=
  omap (λ ev, match ev with EvSleep secs => Some secs | _ => None end) l.

(** The lines printed. *)
Definition printed (l : list event) : list string :=
  omap (λ ev, match ev with EvPrint line => Some line | _ => None end) l.

(** The values printed through [json.dumps]. *)
Definition printed_json (l : list event) : list json :=
  omap (λ ev, match ev with EvPrintJson v => Some v | _ => None end) l.

(** Totals whose third component is the sum of the other two. *)
Definition totals_add_up (t : Totals) : Prop :=
  total_all t = total_prompt t + total_completion t.

(** ** The first version of the script (run_role_check_1.0.py) *)

Module V1.

(** Its policy text: the same as the later one without the ERROR status. *)
Definition SYSTEM_PROMPT : string := unlines [
  "You are a strict document-based classifier.";
  "Use ONLY the text provided. Do not assume facts not stated.";
  "Your task: determine whether the person is a BAKER, based on evidence in the text.";
  "";
  "Return JSON ONLY matching the schema:";
  "{";
  "  " ++ dq ++ "name" ++ dq ++ ": string,";
  "  " ++ dq ++ "stated_occupation" ++ dq ++ ": string,";
  "  " ++ dq ++ "baker_status" ++ dq ++ ": " ++ dq ++ "SUPPORTED" ++ dq ++ " | "
       ++ dq ++ "NOT_FOUND" ++ dq ++ " | " ++ dq ++ "CONFLICT" ++ dq ++ ",";
  "  " ++ dq ++ "evidence" ++ dq ++ ": [string, ...],";
  "  " ++ dq ++ "reason" ++ dq ++ ": string";
  "}";
  "";
  "Rules:";
  "- SUPPORTED: the document supports that they are a baker (title and/or duties clearly involve baking).";
  "- CONFLICT: the document states " ++ dq ++ "baker" ++ dq
       ++ " (or equivalent) BUT the duties contradict (e.g., no baking tasks; different role).";
  "- NOT_FOUND: insufficient evidence they are a baker (even if food-related).";
  "- evidence must be 1-3 short verbatim snippets from the document that justify the status.";
  "- If name or occupation is not explicitly present, use " ++ dq ++ dq ++ " for those fields."
].

(** What [result["_file"] = ...] raises when [result] is not a dict. *)
Definition TypeError_setitem (v : json) : pyexc :=
  {| exc_class := "TypeError";
     exc_msg := match v with
                | JArr _ => "list indices must be integers or slices, not str"
                | _ => "'" ++ py_type v ++ "' object does not support item assignment"
                end |}.

Section Script.

Variable client_create : nat → Request → pyexc + Response.
Variable json_loads : string → pyexc + json.

(** Here [SAMPLE_DIR] and [OUT_PATH] are the constants "sample_people" and
    "results.json"; [dir_exists], [dir_glob_txt] and the resolved paths of
    the environment describe them, and its command line is not read. *)
Variable env : Environ.

Definition request (text : string) : Request :=
  {| req_model := MODEL env;
     req_system := SYSTEM_PROMPT;
     req_user := "DOCUMENT:" ++ nl ++ text |}.

(** One call, no [try]: whatever is raised leaves the function. *)
Definition analyze_file (text : string) : Py json :=
  resp ← create client_create (request text);
  content ← match resp_choices resp with
            | c :: _ => mret c
            | [] => raise (Exception IndexError_list)
            end;
  match content with
  | Some s => match json_loads s with
              | inl e => raise (Exception e)
              | inr v => mret v
              end
  | None => raise (Exception TypeError_loads_None)
  end.

Fixpoint batch_loop (files : list (string * string)) (results : list record)
    : Py (list record) :=
  match files with
  | [] => mret results
  | fp :: rest =>
      let text := fp.2 in
      result ← analyze_file text;
      match result with
      | JObj d =>
          let result' := <[ "_file" := JStr fp.1 ]> d in
          let results' := (results ++ [result'])%list in
          _ ← print (nl ++ "=== " ++ fp.1 ++ " ===");
          _ ← emit (EvPrintJson (JObj result'));
          batch_loop rest results'
      | v => raise (Exception (TypeError_setitem v))
      end
  end.

Definition main : Py (list record) :=
  if negb (dir_exists env)
  then raise (SystemExit ("Missing folder: " ++ dir_resolved env))
  else
    let files := sorted (dir_glob_txt env) in
    match files with
    | [] => raise (SystemExit ("No .txt files found in " ++ dir_resolved env))
    | _ :: _ =>
        results ← batch_loop files [];
        _ ← emit (EvWrite "results.json" (JArr (JObj <$> results)));
        _ ← print (nl ++ "Saved: " ++ out_resolved env);
        mret results
    end.

Definition script : Py (list record) :=
  if api_key_missing env
  then raise (SystemExit
    "Missing OPENAI_API_KEY. Put it in a .env file or set it in your environment.")
  else main.

End Script.

Section Outcomes.

Variable json_loads : string → pyexc + json.

(** The one call for a document yields the object [d]: a completion came
    back, its first choice has content, and the content parses to [d].
    Neither usage nor keys are looked at. *)
Inductive answered (out : pyexc + Response) (d : record) : Prop :=
| Answered (resp : Response) (s : string) (rest : list (option string)) :
    out = inr resp →
    resp_choices resp = Some s :: rest →
    json_loads s = inr (JObj d) →
    answered out d.

(** The one call for a document ends the run with exception [e]: one
    constructor per statement of the loop body that can raise. *)
Inductive raises (out : pyexc + Response) : pyexc → Prop :=
| Raises_call e :
    out = inl e →
    raises out e
| Raises_no_choice resp :
    out = inr resp →
    resp_choices resp = [] →
    raises out IndexError_list
| Raises_no_content resp rest :
    out = inr resp →
    resp_choices resp = None :: rest →
    raises out TypeError_loads_None
| Raises_parse resp s rest e :
    out = inr resp →
    resp_choices resp = Some s :: rest →
    json_loads s = inl e →
    raises out e
| Raises_setitem resp s rest v :
    out = inr resp →
    resp_choices resp = Some s :: rest →
    json_loads s = inr v →
    (∀ d, v ≠ JObj d) →
    raises out (TypeError_setitem v).

End Outcomes.

End V1.

(** The world after the first version's one request for a document. *)
Definition V1_after_call (env : Environ) (text : string) (w : World) : World :=
  {| calls := S (calls w);
     log := log w ++ [EvCreate (calls w) (V1.request env text)] |}.

(** The same environment with the directory's entries enumerated as
    [files]. *)
Definition with_glob (env : Environ) (files : list (string * string)) : Environ :=
  {| OPENAI_MODEL := OPENAI_MODEL env;
     OPENAI_API_KEY := OPENAI_API_KEY env;
     arg_input := arg_input env;
     arg_output := arg_output env;
     dir_exists := dir_exists env;
     dir_glob_txt := files;
     dir_resolved := dir_resolved env;
     out_resolved := out_resolved env |}.

(** ** More concrete services *)

Module Fixtures2.

Import Fixtures.

(** [json.loads] as in [Fixtures], and on one text that is JSON but not an
    object. *)
Definition list_text : string := "[1, 2]".

Definition loads (s : string) : pyexc + json :=
  if bool_decide (s = list_text) then inr (JArr [JInt 1; JInt 2])
  else Fixtures.loads s.

(** A service that gives the same full answer to every request. *)
Definition always_alice : nat → Request → pyexc + Response :=
  λ _ _, reply usage_a alice_text.

(** A service that is never reachable. *)
Definition always_down : nat → Request → pyexc + Response :=
  λ _ _, inl ConnectionError.

(** A first answer short of a key, then an answer that is a JSON list. *)
Definition short_then_list : nat → Request → pyexc + Response :=
  scripted [reply usage_a no_reason_text; reply usage_b list_text].

(** An answer short of a key, then no service. *)
Definition short_then_down : nat → Request → pyexc + Response :=
  scripted [reply usage_a no_reason_text].

(** The environment of [Fixtures] with an empty credential. *)
Definition env_empty_key : Environ :=
  {| OPENAI_MODEL := None;
     OPENAI_API_KEY := Some "";
     arg_input := "sample_people";
     arg_output := "results.json";
     dir_exists := false;
     dir_glob_txt := [];
     dir_resolved := "/srv/sample_people";
     out_resolved := "/srv/results.json" |}.

End Fixtures2.

(** ** The driver with its file reads *)

(** [main] reads each document inside its loop, outside any [try]:
    [fp.read_text] returns the text or raises an [OSError] (the entry is a
    directory, may not be read, has gone).  Here the read is part of the
    loop; the definitions above are this loop on a directory whose entries
    all read as recorded. *)
Section ScriptIO.

Variable client_create : nat → Request → pyexc + Response.
Variable json_loads : string → pyexc + json.
Variable env : Environ.

(** [fp.read_text(encoding="utf-8", errors="ignore")] for the entry of
    that name.  The texts recorded in [dir_glob_txt env] are not consulted
    by the definitions of this section. *)
Variable read_text : string → pyexc + string.




End ScriptIO.






(** The token counts of the usages that came back, added up: one field
    at a time, over the documents that have a usage. *)
Definition usage_sum (field : Usage → Z) (outs : list (record * option Usage)) : Z :=
  foldr (λ out acc, match out.2 with
                    | Some u => field u + acc
                    | None => acc
                    end) 0 outs.

Module Fixtures3.

Import Fixtures.

(** The full answer in a completion that carries no usage. *)
Definition reply_without_usage (content : string) : pyexc + Response :=
  inr {| resp_usage := None; resp_choices := [Some content] |}.

(** An answer short of its reason key, then the full answer without
    usage. *)
Definition short_then_no_usage : nat → Request → pyexc + Response :=
  scripted [reply usage_a no_reason_text; reply_without_usage alice_text].



End Fixtures3.

(** * Properties *)

Section AttemptTheory.

Variable client_create : nat → Request → pyexc + Response.
Variable json_loads : string → pyexc + json.
Variable env : Environ.

Local Abbreviation ok := (accepted json_loads).
Local Abbreviation ko := (rejected json_loads).
Local Abbreviation attempt := (attempt_body client_create json_loads env).
Local Abbreviation analyze := (analyze_file client_create json_loads env).
Local Abbreviation req := (request env).
Local Abbreviation answer := (λ n text, client_create n (request env text)).
Local Abbreviation after := (after_attempt client_create env).

Lemma accepted_or_rejected out :
  (∃ d u, ok out d u) ∨ (∃ e, ko out e).
Proof.
  destruct out as [e|resp]; [right; eexists; by eapply Rej_call_raised|].
  destruct (resp_usage resp) as [u|] eqn:Hu;
    [|right; eexists; by eapply Rej_no_usage].
  destruct (resp_choices resp) as [|[s|] rest] eqn:Hc;
    [right; eexists; by eapply Rej_no_choice
    |
    |right; eexists; by eapply Rej_no_content].
  destruct (json_loads s) as [e|v] eqn:Hl;
    [right; eexists; by eapply Rej_parse_failure|].
  destruct v as [| | | | | |d];
    try (right; eexists; by eapply Rej_not_an_object).
  destruct (decide (required ⊆ dom d)) as [Hk|Hk].
  - left. exists d, u. by econstructor.
  - right. eexists. by eapply Rej_missing_keys.
Qed.

Lemma accepted_not_rejected out d u e : ok out d u → ko out e → False.
Proof.
  intros [resp s rest -> Hu Hc Hl Hk] Hr.
  inversion Hr as [? Ho|? Ho Hu'|? ? Ho Hu' Hc'|? ? ? Ho Hu' Hc'
                  |? ? ? ? ? Ho Hu' Hc' Hl'|? ? ? ? v Ho Hu' Hc' Hl' Hv
                  |? ? ? ? ? Ho Hu' Hc' Hl' Hk'];
    try discriminate Ho; injection Ho as <-; congruence.
Qed.

Lemma accepted_inj out d u d' u' :
  ok out d u → ok out d' u' → d = d' ∧ u = u'.
Proof.
  intros [r s rest -> Hu Hc Hl _] [r' s' rest' [= <-] Hu' Hc' Hl' _].
  rewrite Hu in Hu'. rewrite Hc in Hc'. simplify_eq.
  rewrite Hl in Hl'. by simplify_eq.
Qed.

Lemma rejected_inj out e e' : ko out e → ko out e' → e = e'.
Proof.
  intros H1 H2.
  destruct H1; destruct H2; subst;
    repeat match goal with
           | H : inr _ = inr _ |- _ => injection H as <-
           | H : inl _ = inl _ |- _ => injection H as <-
           | H1 : ?x = _, H2 : ?x = _ |- _ => rewrite H1 in H2
           | H : Some _ = Some _ |- _ => injection H as <-
           | H : _ :: _ = _ :: _ |- _ => injection H as <- <-
           | H : Some _ :: _ = _ :: _ |- _ => injection H as <- <-
           end;
    try done; try congruence.
  all: exfalso; naive_solver.
Qed.

Lemma attempt_body_accepted text label w d u :
  ok (answer (calls w) text) d u →
  attempt text label w = (inr (d, u), after text label w).
Proof.
  intros [resp s rest Hc Hu Hch Hl Hk].
  unfold after_attempt, attempt_body, mbind, Py_bind, py_bind, create.
  rewrite Hc. simpl. rewrite Hu. simpl.
  rewrite Hch. simpl. rewrite Hl. simpl.
  rewrite bool_decide_eq_true_2 by done. simpl.
  unfold mret, Py_ret, py_ret. by rewrite <- app_assoc.
Qed.

Lemma attempt_body_rejected text label w e :
  ko (answer (calls w) text) e →
  attempt text label w = (inl (Exception e), after text label w).
Proof.
  intros Hr.
  unfold after_attempt, attempt_body, mbind, Py_bind, py_bind, create.
  destruct Hr as [? Ho|? Ho Hu|? ? Ho Hu Hc|? ? ? Ho Hu Hc
                  |? ? ? ? ? Ho Hu Hc Hl|? ? ? ? v Ho Hu Hc Hl Hv
                  |? ? ? ? ? Ho Hu Hc Hl Hk];
    rewrite Ho; simpl; try done;
    rewrite Hu; simpl; try done;
    rewrite Hc; simpl; try (by rewrite <- app_assoc);
    rewrite Hl; simpl; try (by rewrite <- app_assoc).
  - destruct v; try (by rewrite <- app_assoc). by destruct (Hv d).
  - rewrite bool_decide_eq_false_2 by done. simpl. by rewrite <- app_assoc.
Qed.

(** The three ways [analyze_file] can go, each with the value it returns
    and the world it leaves. *)
Lemma analyze_first_accepted text label w d u :
  ok (answer (calls w) text) d u →
  analyze text label w = (inr (Some (d, Some u)), after text label w).
Proof.
  intros H. unfold analyze_file. simpl. unfold try_except, mbind, Py_bind, py_bind.
  by rewrite (attempt_body_accepted _ _ _ _ _ H).
Qed.

Lemma analyze_second_accepted text label w e1 d u :
  ko (answer (calls w) text) e1 →
  ok (answer (S (calls w)) text) d u →
  analyze text label w =
    (inr (Some (d, Some u)), after text label (after_delay (after text label w))).
Proof.
  intros H1 H2. unfold analyze_file. simpl.
  unfold try_except at 1. unfold mbind at 1. unfold Py_bind, py_bind at 1.
  rewrite (attempt_body_rejected _ _ _ _ H1). simpl.
  unfold mbind at 1. unfold Py_bind, py_bind at 1. unfold sleep, emit at 1.
  fold (after_delay (after text label w)).
  unfold try_except, mbind, Py_bind, py_bind.
  by rewrite (attempt_body_accepted _ _ (after_delay (after text label w)) _ _ H2).
Qed.

Lemma analyze_both_rejected text label w e1 e2 :
  ko (answer (calls w) text) e1 →
  ko (answer (S (calls w)) text) e2 →
  analyze text label w =
    (inr (Some (error_record e2, None)),
     after text label (after_delay (after text label w))).
Proof.
  intros H1 H2. unfold analyze_file. simpl.
  unfold try_except at 1. unfold mbind at 1. unfold Py_bind, py_bind at 1.
  rewrite (attempt_body_rejected _ _ _ _ H1). simpl.
  unfold mbind at 1. unfold Py_bind, py_bind at 1. unfold sleep, emit at 1.
  fold (after_delay (after text label w)).
  unfold try_except, mbind, Py_bind, py_bind.
  by rewrite (attempt_body_rejected _ _ (after_delay (after text label w)) _ H2).
Qed.

Lemma analyze_cases text label w :
  (∃ d u, ok (answer (calls w) text) d u ∧
          analyze text label w = (inr (Some (d, Some u)), after text label w))
  ∨ (∃ e1 d u, ko (answer (calls w) text) e1 ∧ ok (answer (S (calls w)) text) d u ∧
          analyze text label w =
            (inr (Some (d, Some u)), after text label (after_delay (after text label w))))
  ∨ (∃ e1 e2, ko (answer (calls w) text) e1 ∧ ko (answer (S (calls w)) text) e2 ∧
          analyze text label w =
            (inr (Some (error_record e2, None)),
             after text label (after_delay (after text label w)))).
Proof.
  destruct (accepted_or_rejected (answer (calls w) text)) as [(d & u & H1)|(e1 & H1)].
  { left. exists d, u. eauto using analyze_first_accepted. }
  right.
  destruct (accepted_or_rejected (answer (S (calls w)) text)) as [(d & u & H2)|(e2 & H2)].
  - left. exists e1, d, u. eauto using analyze_second_accepted.
  - right. exists e1, e2. eauto using analyze_both_rejected.
Qed.

Lemma control_prints label out : omap control (attempt_prints label out) = [].
Proof. destruct out as [e|resp]; [done|]. simpl. by destruct (resp_usage resp). Qed.

Lemma error_record_dom e : dom (error_record e) = required.
Proof. unfold error_record, required. rewrite !dom_insert_L, dom_empty_L. set_solver. Qed.

(** C1. When both attempts fail, whatever the reasons, [analyze_file]
    returns the synthesized record: status ERROR, empty name, occupation
    and evidence, a non-empty reason made of the last failure's message,
    and no usage. *)
Theorem both_attempts_fail_error_record text label w e1 e2 :
  rejected json_loads (client_create (calls w) (request env text)) e1 →
  rejected json_loads (client_create (S (calls w)) (request env text)) e2 →
  ∃ r w',
    analyze_file client_create json_loads env text label w = (inr (Some (r, None)), w') ∧
    r !! "baker_status" = Some (JStr "ERROR") ∧
    r !! "name" = Some (JStr "") ∧
    r !! "stated_occupation" = Some (JStr "") ∧
    r !! "evidence" = Some (JArr []) ∧
    r !! "reason" = Some (JStr ("Processing failure: " ++ exc_msg e2)) ∧
    "Processing failure: " ++ exc_msg e2 ≠ "" ∧
    dom r = required.
Proof.
  intros H1 H2. eexists _, _. split; [by eapply analyze_both_rejected|].
  repeat split; try apply error_record_dom; unfold error_record; by simplify_map_eq.
Qed.

(** C2, as the code has it.  When the first attempt fails and the second
    call returns a completion that carries usage and whose content parses
    to an object with the five required keys, [analyze_file] returns that
    object as it is, with the usage of that second completion. *)
Theorem second_attempt_recovers text label w e1 resp u s rest d :
  rejected json_loads (client_create (calls w) (request env text)) e1 →
  client_create (S (calls w)) (request env text) = inr resp →
  resp_usage resp = Some u →
  resp_choices resp = Some s :: rest →
  json_loads s = inr (JObj d) →
  required ⊆ dom d →
  ∃ w', analyze_file client_create json_loads env text label w = (inr (Some (d, Some u)), w').
Proof.
  intros H1 Hc Hu Hch Hl Hk. eexists.
  eapply analyze_second_accepted; [done|]. by econstructor.
Qed.

(** C5. At most two requests go out per document.  The one-second pause
    happens exactly when the first attempt failed, between the two
    requests; nothing follows the second request. *)
Theorem retry_state_machine text label w :
  ∃ r w' tr,
    analyze_file client_create json_loads env text label w = (r, w') ∧
    log w' = (log w ++ tr)%list ∧
    (calls w' ≤ calls w + 2)%nat ∧
    (((∃ d u, accepted json_loads (client_create (calls w) (request env text)) d u) ∧
      omap control tr = [Call] ∧ calls w' = S (calls w))
     ∨ ((∃ e, rejected json_loads (client_create (calls w) (request env text)) e) ∧
        omap control tr = [Call; Delay 1; Call] ∧ calls w' = S (S (calls w)))).
Proof.
  destruct (analyze_cases text label w)
    as [(d & u & H1 & ->)|[(e1 & d & u & H1 & H2 & ->)|(e1 & e2 & H1 & H2 & ->)]].
  - eexists _, _, _. split; [done|]. split; [done|]. split; [simpl; lia|].
    left. split; [eauto|]. simpl. by rewrite control_prints.
  - eexists _, _, _. split; [done|]. simpl.
    split; [by rewrite <- !app_assoc|]. split; [lia|].
    right. split; [eauto|]. split; [|done].
    simpl. rewrite !omap_app. simpl. by rewrite !control_prints.
  - eexists _, _, _. split; [done|]. simpl.
    split; [by rewrite <- !app_assoc|]. split; [lia|].
    right. split; [eauto|]. split; [|done].
    simpl. rewrite !omap_app. simpl. by rewrite !control_prints.
Qed.

(** C4, as the code has it.  A record returned together with usage is the
    object one of the two completions parsed to, untouched: it has a
    [baker_status] key, and the value under it is the model's. *)
Theorem success_record_is_model_object text label w r u w' :
  analyze_file client_create json_loads env text label w = (inr (Some (r, Some u)), w') →
  ∃ n, (n = calls w ∨ n = S (calls w)) ∧
       accepted json_loads (client_create n (request env text)) r u ∧
       is_Some (r !! "baker_status").
Proof.
  intros H.
  assert (∀ d u0, ok (answer (calls w) text) d u0 ∨ ok (answer (S (calls w)) text) d u0 →
                  is_Some (d !! "baker_status")) as Hkey.
  { intros d u0 [[? ? ? ? ? ? ? Hk]|[? ? ? ? ? ? ? Hk]];
      apply elem_of_dom, Hk; unfold required; set_solver. }
  destruct (analyze_cases text label w)
    as [(d & u0 & H1 & E)|[(e1 & d & u0 & H1 & H2 & E)|(e1 & e2 & H1 & H2 & E)]];
    rewrite E in H; simplify_eq; eauto 10.
Qed.

(** [analyze_file] is total: it returns a pair in every case. *)
Lemma analyze_total text label w :
  ∃ r usage w', analyze text label w = (inr (Some (r, usage)), w').
Proof.
  destruct (analyze_cases text label w)
    as [(d & u & _ & ->)|[(e1 & d & u & _ & _ & ->)|(e1 & e2 & _ & _ & ->)]]; eauto.
Qed.

Lemma analyze_result_kinds text label w r usage w' :
  analyze text label w = (inr (Some (r, usage)), w') →
  (∃ u s, usage = Some u ∧ json_loads s = inr (JObj r) ∧ required ⊆ dom r)
  ∨ (∃ e, usage = None ∧ r = error_record e).
Proof.
  intros H.
  destruct (analyze_cases text label w)
    as [(d & u & H1 & E)|[(e1 & d & u & H1 & H2 & E)|(e1 & e2 & H1 & H2 & E)]];
    rewrite E in H; simplify_eq; [left|left|right; eauto].
  - destruct H1; eauto.
  - destruct H2; eauto.
Qed.

End AttemptTheory.

(** ** The order of file names *)

Lemma ascii_compare_refl a : Ascii.compare a a = Eq.
Proof. unfold Ascii.compare. apply N.compare_refl. Qed.

Lemma ascii_compare_lt_trans a b c :
  Ascii.compare a b = Lt → Ascii.compare b c = Lt → Ascii.compare a c = Lt.
Proof.
  unfold Ascii.compare. rewrite !N.compare_lt_iff. apply N.lt_trans.
Qed.

Lemma string_compare_lt_trans a :
  ∀ b c, String.compare a b = Lt → String.compare b c = Lt → String.compare a c = Lt.
Proof.
  induction a as [|x a IH]; intros [|y b] [|z c]; simpl; try done.
  destruct (Ascii.compare x y) eqn:Hxy; try done;
    destruct (Ascii.compare y z) eqn:Hyz; try done; intros Hab Hbc.
  - apply Ascii.compare_eq_iff in Hxy as ->. apply Ascii.compare_eq_iff in Hyz as ->.
    rewrite ascii_compare_refl. eauto.
  - apply Ascii.compare_eq_iff in Hxy as ->. by rewrite Hyz.
  - apply Ascii.compare_eq_iff in Hyz as <-. by rewrite Hxy.
  - by rewrite (ascii_compare_lt_trans _ _ _ Hxy Hyz).
Qed.

#[global] Instance name_le_trans : Transitive name_le.
Proof.
  intros a b c. unfold name_le, String.leb.
  destruct (String.compare a b) eqn:Hab; try done;
    destruct (String.compare b c) eqn:Hbc; try done; intros _ _.
  - apply String.compare_eq_iff in Hab as ->. by rewrite Hbc.
  - apply String.compare_eq_iff in Hab as ->. by rewrite Hbc.
  - apply String.compare_eq_iff in Hbc as <-. by rewrite Hab.
  - by rewrite (string_compare_lt_trans _ _ _ Hab Hbc).
Qed.

#[global] Instance name_le_total : Total name_le.
Proof. intros a b. apply String.leb_total. Qed.

#[global] Instance name_le_antisym : AntiSymm (=) name_le.
Proof. intros a b. apply String.leb_antisym. Qed.

#[global] Instance path_le_trans : Transitive path_le.
Proof. intros a b c. unfold path_le. apply name_le_trans. Qed.

#[global] Instance path_le_total : Total path_le.
Proof. intros a b. unfold path_le. apply name_le_total. Qed.

(** [sorted] yields the one arrangement of the names that is in order. *)
Lemma sorted_names files names :
  names ≡ₚ files.*1 → Sorted name_le names → (sorted files).*1 = names.
Proof.
  intros Hp Hs. apply (StronglySorted_unique name_le).
  - apply (StronglySorted_fmap fst path_le name_le); [by intros ??|].
    apply StronglySorted_merge_sort; apply _.
  - apply Sorted_StronglySorted; [apply _|done].
  - rewrite Hp. unfold sorted. by rewrite merge_sort_Permutation.
Qed.

Lemma sorted_nil_iff files : sorted files = [] ↔ files = [].
Proof.
  split; [|by intros ->].
  intros H. apply Permutation_nil_r. rewrite <- H. unfold sorted.
  by rewrite merge_sort_Permutation.
Qed.

Lemma length_sorted files : length (sorted files) = length files.
Proof. unfold sorted. by rewrite merge_sort_Permutation. Qed.

(** ** The batch driver *)

Section BatchTheory.

Variable client_create : nat → Request → pyexc + Response.
Variable json_loads : string → pyexc + json.
Variable env : Environ.

Local Abbreviation analyze := (analyze_file client_create json_loads env).
Local Abbreviation loop := (batch_loop client_create json_loads env).
Local Abbreviation run := (batch_run client_create json_loads env).
Local Abbreviation answer := (λ n text, client_create n (request env text)).

Lemma sum_usage_cons tot r usage outs :
  sum_usage tot ((r, usage) :: outs) =
  sum_usage (match usage with Some u => add_usage tot u | None => tot end) outs.
Proof. unfold sum_usage. by destruct usage. Qed.

(** The loop never stops early: it appends one record per document and
    adds up the usage that came back. *)
Lemma batch_loop_run files :
  ∀ results tot w,
    ∃ outs w',
      run files w outs w' ∧
      loop files results tot w =
        (inr ((results ++ report_of files outs)%list, sum_usage tot outs), w').
Proof.
  induction files as [|[name text] rest IH]; intros results tot w.
  { exists [], w. split; [constructor|]. simpl. by rewrite app_nil_r. }
  destruct (analyze_total client_create json_loads env text name w)
    as (r & usage & w1 & E).
  destruct (IH (results ++ [<[ "_file" := JStr name ]> r])%list
               (match usage with Some u => add_usage tot u | None => tot end)
               (after_report name r w1)) as (outs & w' & Hrun & Eloop).
  exists ((r, usage) :: outs), w'. split; [by econstructor|].
  simpl. unfold mbind at 1. unfold Py_bind, py_bind at 1. rewrite E. simpl.
  unfold mbind, Py_bind, py_bind, print, emit. simpl.
  rewrite sum_usage_cons. unfold after_report in Eloop.
  rewrite <- app_assoc. simpl. rewrite Eloop. by rewrite <- app_assoc.
Qed.

Lemma batch_run_length files w outs w' :
  run files w outs w' → length outs = length files.
Proof. induction 1; simpl; congruence. Qed.

(** Every pair the batch saw is either an object a completion parsed to,
    with its five keys, or the synthesized record without usage. *)
Lemma batch_run_outs files w outs w' :
  run files w outs w' →
  Forall (λ out,
    (∃ u s, out.2 = Some u ∧ json_loads s = inr (JObj out.1) ∧ required ⊆ dom out.1)
    ∨ (∃ e, out = (error_record e, None))) outs.
Proof.
  induction 1 as [|name text rest w r usage w1 outs w2 E _ IH]; constructor; [|done].
  destruct (analyze_result_kinds _ _ _ _ _ _ _ _ _ E)
    as [(u & s & -> & Hl & Hk)|(e & -> & ->)]; [left|right]; eauto.
Qed.

(** Between its first and its last document the batch writes no file. *)
Lemma analyze_log text label w r w' :
  analyze text label w = (r, w') →
  ∃ tr, log w' = (log w ++ tr)%list ∧ writes tr = [].
Proof.
  intros H.
  destruct (analyze_cases client_create json_loads env text label w)
    as [(d & u & _ & E)|[(e1 & d & u & _ & _ & E)|(e1 & e2 & _ & _ & E)]];
    rewrite E in H; simplify_eq; simpl.
  - eexists. split; [done|]. unfold writes. simpl.
    destruct (answer (calls w) text) as [?|resp]; [done|]. simpl.
    by destruct (resp_usage resp).
  - eexists. rewrite <- !app_assoc. split; [done|]. unfold writes.
    rewrite !omap_app. simpl.
    destruct (answer (calls w) text) as [?|resp]; simpl;
      destruct (answer (S (calls w)) text) as [?|resp']; simpl;
      repeat match goal with |- context [resp_usage ?x] => destruct (resp_usage x) end;
      done.
  - eexists. rewrite <- !app_assoc. split; [done|]. unfold writes.
    rewrite !omap_app. simpl.
    destruct (answer (calls w) text) as [?|resp]; simpl;
      destruct (answer (S (calls w)) text) as [?|resp']; simpl;
      repeat match goal with |- context [resp_usage ?x] => destruct (resp_usage x) end;
      done.
Qed.

Lemma batch_run_log files w outs w' :
  run files w outs w' →
  ∃ tr, log w' = (log w ++ tr)%list ∧ writes tr = [].
Proof.
  induction 1 as [w|name text rest w r usage w1 outs w2 E _ (tr2 & Hl2 & Hw2)].
  { exists []. by rewrite app_nil_r. }
  destruct (analyze_log _ _ _ _ _ E) as (tr1 & Hl1 & Hw1).
  exists (tr1 ++ [EvPrint (nl ++ "=== " ++ name ++ " ===");
                  EvPrintJson (JObj (<[ "_file" := JStr name ]> r))] ++ tr2)%list.
  split.
  - rewrite Hl2. simpl. rewrite Hl1. by rewrite <- !app_assoc.
  - unfold writes in *. rewrite !omap_app, Hw1, Hw2. done.
Qed.

Lemma report_of_length files outs :
  length outs = length files → length (report_of files outs) = length files.
Proof. intros H. unfold report_of. rewrite length_zip_with. lia. Qed.

Lemma report_of_files files outs :
  length outs = length files →
  (λ rec : record, rec !! "_file") <$> report_of files outs = (Some ∘ JStr) <$> files.*1.
Proof.
  revert outs. induction files as [|fp files IH]; intros [|out outs] Hlen;
    simplify_eq/=; [done|].
  rewrite lookup_insert_eq. f_equal. by apply IH.
Qed.

Lemma script_aborts w :
  config_error env = true →
  ∃ msg, script client_create json_loads env w = (inl (SystemExit msg), w).
Proof.
  unfold config_error, script, main. intros H.
  destruct (api_key_missing env); [by eexists|].
  destruct (dir_exists env); [|by eexists]. simpl in *.
  apply bool_decide_eq_true_1 in H. rewrite H. by eexists.
Qed.

Lemma script_completes w :
  config_error env = false →
  ∃ outs w1,
    run (sorted (dir_glob_txt env)) w outs w1 ∧
    script client_create json_loads env w =
      (inr (report_of (sorted (dir_glob_txt env)) outs, sum_usage zero_totals outs),
       after_save env (report_of (sorted (dir_glob_txt env)) outs)
                  (sum_usage zero_totals outs) w1).
Proof.
  unfold config_error, script, main. intros H.
  destruct (api_key_missing env); [done|].
  destruct (dir_exists env); [|done]. simpl in *.
  apply bool_decide_eq_false_1 in H.
  destruct (batch_loop_run (sorted (dir_glob_txt env)) [] zero_totals w)
    as (outs & w1 & Hrun & E).
  exists outs, w1. split; [done|].
  destruct (sorted (dir_glob_txt env)) as [|fp rest] eqn:Hs.
  { apply (proj1 (sorted_nil_iff _)) in Hs. contradiction. }
  unfold mbind at 1. unfold Py_bind, py_bind at 1. rewrite E. simpl.
  unfold mbind, Py_bind, py_bind, print, emit, after_save. simpl.
  by rewrite <- !app_assoc.
Qed.

Lemma report_of_elem files outs rec :
  rec ∈ report_of files outs →
  ∃ fp out, rec = <[ "_file" := JStr fp.1 ]> out.1 ∧ fp ∈ files ∧ out ∈ outs.
Proof.
  intros [i Hi]%list_elem_of_lookup. unfold report_of in Hi.
  apply lookup_zip_with_Some in Hi as (fp & out & -> & Hf & Ho).
  exists fp, out. eauto using list_elem_of_lookup_2.
Qed.

Lemma required_insert_file (d : record) v :
  required ⊆ dom d → required ⊆ dom (<[ "_file" := v ]> d).
Proof.
  intros H. rewrite dom_insert_L. etrans; [exact H|]. apply union_subseteq_r.
Qed.

Lemma error_record_well_shaped name e :
  well_shaped (<[ "_file" := JStr name ]> (error_record e)) = true.
Proof. reflexivity. Qed.

(** C3, as the code has it.  Every record of the report has the five
    required keys; it is either an object a completion parsed to, with
    the file name added and nothing checked beyond the presence of the
    keys, or the synthesized record, which has the full shape. *)
Theorem report_records_have_all_keys w :
  config_error env = false →
  ∃ results tot w',
    script client_create json_loads env w = (inr (results, tot), w') ∧
    ∀ rec, rec ∈ results →
      required ⊆ dom rec ∧
      ((∃ name d s, rec = <[ "_file" := JStr name ]> d ∧ json_loads s = inr (JObj d))
       ∨ (well_shaped rec = true ∧
          rec !! "baker_status" = Some (JStr "ERROR") ∧
          rec !! "evidence" = Some (JArr []))).
Proof.
  intros Hc. destruct (script_completes w Hc) as (outs & w1 & Hrun & E).
  eexists _, _, _. split; [exact E|].
  intros rec (fp & out & -> & _ & Hout)%report_of_elem.
  pose proof (batch_run_outs _ _ _ _ Hrun) as Hall.
  rewrite Forall_forall in Hall.
  destruct (Hall _ Hout) as [(u & s & _ & Hl & Hk)|(e & ->)].
  - split; [by apply required_insert_file|]. left. eauto.
  - split; [apply required_insert_file; simpl; by rewrite error_record_dom|].
    right. done.
Qed.

(** C7. The report has one record per document, and its records carry
    the file names in sorted order, whatever happened to each document. *)
Theorem report_follows_sorted_names w names :
  config_error env = false →
  names ≡ₚ (dir_glob_txt env).*1 →
  Sorted name_le names →
  ∃ results tot w',
    script client_create json_loads env w = (inr (results, tot), w') ∧
    length results = length (dir_glob_txt env) ∧
    writes (log w') = (writes (log w) ++ [(arg_output env, JArr (JObj <$> results))])%list ∧
    ∀ i name, names !! i = Some name →
      ∃ rec, results !! i = Some rec ∧ rec !! "_file" = Some (JStr name).
Proof.
  intros Hc Hp Hs. destruct (script_completes w Hc) as (outs & w1 & Hrun & E).
  pose proof (batch_run_length _ _ _ _ Hrun) as Hlen.
  destruct (batch_run_log _ _ _ _ Hrun) as (tr & Hlog & Hw).
  eexists _, _, _. split; [exact E|]. split; [|split].
  - rewrite report_of_length by done. apply length_sorted.
  - simpl. rewrite Hlog. unfold writes in *. rewrite !omap_app, Hw. simpl.
    by rewrite app_nil_r.
  - intros i name Hi.
    pose proof (report_of_files _ _ Hlen) as Hf.
    rewrite (sorted_names _ _ Hp Hs) in Hf.
    apply (f_equal (λ l, l !! i)) in Hf. rewrite !list_lookup_fmap, Hi in Hf.
    destruct (report_of (sorted (dir_glob_txt env)) outs !! i) as [rec|]; [|done].
    exists rec. split; [done|]. by simplify_eq/=.
Qed.

(** C10. The record appended for a document is the record
    [analyze_file] returned for it with the file name put under "_file":
    every other key, required or not, keeps its value. *)
Theorem report_record_is_result_plus_file files results tot w :
  ∃ outs new tot' w',
    batch_run client_create json_loads env files w outs w' ∧
    batch_loop client_create json_loads env files results tot w = (inr ((results ++ new)%list, tot'), w') ∧
    length new = length files ∧
    length outs = length files ∧
    ∀ i name text r usage,
      files !! i = Some (name, text) →
      outs !! i = Some (r, usage) →
      ∃ rec,
        new !! i = Some rec ∧
        rec = <[ "_file" := JStr name ]> r ∧
        rec !! "_file" = Some (JStr name) ∧
        (∀ k, k ≠ "_file" → rec !! k = r !! k) ∧
        dom rec = {[ "_file" ]} ∪ dom r ∧
        (r !! "_file" = None → size rec = S (size r)).
Proof.
  destruct (batch_loop_run files results tot w) as (outs & w' & Hrun & E).
  pose proof (batch_run_length _ _ _ _ Hrun) as Hlen.
  eexists outs, _, _, w'. split; [done|]. split; [exact E|].
  split; [by apply report_of_length|]. split; [done|].
  intros i name text r usage Hf Ho. eexists. split.
  { unfold report_of. apply lookup_zip_with_Some. eauto. }
  simpl. split; [done|]. split; [apply lookup_insert_eq|].
  split; [intros k Hk; by apply lookup_insert_ne|].
  split; [apply dom_insert_L|]. apply map_size_insert_None.
Qed.

(** What the driver's additions come to, one total at a time. *)
Lemma sum_usage_fields tot outs :
  total_prompt (sum_usage tot outs) = total_prompt tot + usage_sum prompt_tokens outs ∧
  total_completion (sum_usage tot outs)
    = total_completion tot + usage_sum completion_tokens outs ∧
  total_all (sum_usage tot outs) = total_all tot + usage_sum total_tokens outs.
Proof.
  revert tot. induction outs as [|[r [u|]] outs IH]; intros tot.
  - unfold sum_usage, usage_sum. simpl. lia.
  - rewrite sum_usage_cons. destruct (IH (add_usage tot u)) as (Hp & Hc & Ha).
    rewrite Hp, Hc, Ha. unfold usage_sum, add_usage. simpl. lia.
  - rewrite sum_usage_cons. destruct (IH tot) as (Hp & Hc & Ha).
    rewrite Hp, Hc, Ha. unfold usage_sum. simpl. lia.
Qed.

(** C8. The usage [analyze_file] returns is absent exactly when both
    attempts failed; when present it is the usage of the call that
    succeeded; and each of the driver's three totals is what it started
    from plus the sum of that token count over the documents whose call
    succeeded, from zero for the script as a whole. *)
Theorem usage_absent_iff_both_failed :
  (∀ text label w,
     ∃ r usage w',
       analyze_file client_create json_loads env text label w = (inr (Some (r, usage)), w') ∧
       (usage = None ↔
          ∃ e1 e2, rejected json_loads (client_create (calls w) (request env text)) e1 ∧
                   rejected json_loads (client_create (S (calls w)) (request env text)) e2) ∧
       (∀ u, usage = Some u →
          accepted json_loads (client_create (calls w) (request env text)) r u
          ∨ ((∃ e1, rejected json_loads (client_create (calls w) (request env text)) e1) ∧
             accepted json_loads (client_create (S (calls w)) (request env text)) r u)))
  ∧ (∀ files results tot w,
       ∃ outs results' tot' w',
         batch_run client_create json_loads env files w outs w' ∧
         batch_loop client_create json_loads env files results tot w
           = (inr (results', tot'), w') ∧
         total_prompt tot' = total_prompt tot + usage_sum prompt_tokens outs ∧
         total_completion tot' = total_completion tot + usage_sum completion_tokens outs ∧
         total_all tot' = total_all tot + usage_sum total_tokens outs)
  ∧ (∀ w results tot' w',
       script client_create json_loads env w = (inr (results, tot'), w') →
       ∃ outs w1,
         batch_run client_create json_loads env (sorted (dir_glob_txt env)) w outs w1 ∧
         total_prompt tot' = usage_sum prompt_tokens outs ∧
         total_completion tot' = usage_sum completion_tokens outs ∧
         total_all tot' = usage_sum total_tokens outs).
Proof.
  split; [|split].
  - intros text label w.
    destruct (analyze_cases client_create json_loads env text label w)
      as [(d & u & H1 & ->)|[(e1 & d & u & H1 & H2 & ->)|(e1 & e2 & H1 & H2 & ->)]];
      eexists _, _, _; (split; [done|]); split.
    + split; [done|]. intros (e1 & e2 & K1 & _).
      destruct (accepted_not_rejected _ _ _ _ _ H1 K1).
    + intros u' [= <-]. by left.
    + split; [done|]. intros (e1' & e2 & _ & K2).
      destruct (accepted_not_rejected _ _ _ _ _ H2 K2).
    + intros u' [= <-]. right. eauto.
    + split; [eauto|done].
    + done.
  - intros files results tot w.
    destruct (batch_loop_run files results tot w) as (outs & w' & Hrun & E).
    destruct (sum_usage_fields tot outs) as (Hp & Hc & Ha).
    exists outs. eexists _, _, w'. split; [done|]. split; [exact E|]. done.
  - intros w results tot' w' E.
    destruct (config_error env) eqn:Hc.
    { destruct (script_aborts w Hc) as (msg & E'). rewrite E' in E. discriminate E. }
    destruct (script_completes w Hc) as (outs & w1 & Hrun & E').
    rewrite E' in E. injection E as _ <- _.
    destruct (sum_usage_fields zero_totals outs) as (Hp & Hcm & Ha).
    exists outs, w1. split; [done|]. rewrite Hp, Hcm, Ha. done.
Qed.

(** C9. Whatever the service does on the two attempts, [analyze_file]
    returns a pair: it neither raises nor runs off the end of its loop, so
    the driver's unpacking of the pair never fails and the loop returns. *)
Theorem analyze_file_returns_pair :
  (∀ text label w, ∃ r usage w', analyze_file client_create json_loads env text label w = (inr (Some (r, usage)), w'))
  ∧ (∀ files results tot w, ∃ res w', batch_loop client_create json_loads env files results tot w = (inr res, w')).
Proof.
  split.
  - apply analyze_total.
  - intros files results tot w.
    destruct (batch_loop_run files results tot w) as (outs & w' & _ & E). eauto.
Qed.

End BatchTheory.

(** ** The properties on concrete runs *)

Section Runs.

Import Fixtures.

(** Decide a closed statement about concrete records by evaluation. *)
Ltac by_evaluation :=
  match goal with
  | |- ¬ ?P => apply (bool_decide_eq_false_1 P)
  | |- ?P => apply (bool_decide_eq_true_1 P)
  end; vm_compute; reflexivity.

(** A first answer without its reason key, then an answer that is not
    JSON: the record is the synthesized one, its reason the decoder's. *)
Lemma both_attempts_fail_error_record_witness :
  ∃ r w',
    analyze_file (scripted [reply usage_a no_reason_text; reply usage_b "upstream timeout"])
                 loads env0 alice_doc "alice.txt" w0 = (inr (Some (r, None)), w') ∧
    r !! "baker_status" = Some (JStr "ERROR") ∧
    r !! "name" = Some (JStr "") ∧
    r !! "stated_occupation" = Some (JStr "") ∧
    r !! "evidence" = Some (JArr []) ∧
    r !! "reason" = Some (JStr ("Processing failure: " ++ exc_msg JSONDecodeError)) ∧
    "Processing failure: " ++ exc_msg JSONDecodeError ≠ "" ∧
    dom r = required.
Proof.
  apply (both_attempts_fail_error_record
           (scripted [reply usage_a no_reason_text; reply usage_b "upstream timeout"])
           loads env0 alice_doc "alice.txt" w0
           (ValueError "Invalid schema from model") JSONDecodeError).
  - eapply Rej_missing_keys; [reflexivity|reflexivity|reflexivity|reflexivity|].
    by_evaluation.
  - eapply Rej_parse_failure; reflexivity.
Defined.

(** The answer without its reason key, then the full answer: the second
    object comes back, with the second call's usage. *)
Lemma second_attempt_recovers_witness :
  ∃ w',
    analyze_file (scripted [reply usage_a no_reason_text; reply usage_b alice_text])
                 loads env0 alice_doc "alice.txt" w0 =
      (inr (Some (alice_value, Some usage_b)), w').
Proof.
  apply (second_attempt_recovers
           (scripted [reply usage_a no_reason_text; reply usage_b alice_text])
           loads env0 alice_doc "alice.txt" w0
           (ValueError "Invalid schema from model")
           {| resp_usage := Some usage_b; resp_choices := [Some alice_text] |}
           usage_b alice_text [] alice_value).
  - eapply Rej_missing_keys; [reflexivity|reflexivity|reflexivity|reflexivity|].
    by_evaluation.
  - reflexivity.
  - reflexivity.
  - reflexivity.
  - vm_compute. reflexivity.
  - by_evaluation.
Defined.

(** C3 as stated fails: the report of this run holds a record whose
    status is none of the four and whose evidence has four entries. *)
Lemma report_shape_not_enforced :
  ¬ (∀ client_create json_loads env w results tot w',
       script client_create json_loads env w = (inr (results, tot), w') →
       Forall (λ rec, well_shaped rec = true) results).
Proof.
  intros H.
  assert (Forall (λ rec, well_shaped rec = true)
            [<[ "_file" := JStr "alice.txt" ]> odd_value;
             <[ "_file" := JStr "bob.txt" ]> (error_record ConnectionError)]) as K.
  { apply (H odd_then_down loads env0 w0 _ (add_usage zero_totals usage_a)
             (script odd_then_down loads env0 w0).2).
    vm_compute. reflexivity. }
  apply Forall_cons_1 in K as [K _]. vm_compute in K. discriminate K.
Qed.

Lemma report_records_have_all_keys_witness :
  ∃ results tot w',
    script odd_then_down loads env0 w0 = (inr (results, tot), w') ∧
    ∀ rec, rec ∈ results →
      required ⊆ dom rec ∧
      ((∃ name d s, rec = <[ "_file" := JStr name ]> d ∧ loads s = inr (JObj d))
       ∨ (well_shaped rec = true ∧
          rec !! "baker_status" = Some (JStr "ERROR") ∧
          rec !! "evidence" = Some (JArr []))).
Proof.
  apply (report_records_have_all_keys odd_then_down loads env0 w0).
  reflexivity.
Defined.

(** C4 as stated fails: here the model's own object says ERROR, passes
    the key check and is returned from the success path. *)
Lemma model_error_status_returned :
  ¬ (∀ client_create json_loads env text label w r u w',
       analyze_file client_create json_loads env text label w
         = (inr (Some (r, Some u)), w') →
       status_in model_statuses r = true).
Proof.
  intros H.
  specialize (H (scripted [reply usage_a model_error_text]) loads env0
                alice_doc "alice.txt" w0 model_error_value usage_a
                (analyze_file (scripted [reply usage_a model_error_text]) loads env0
                              alice_doc "alice.txt" w0).2).
  assert (status_in model_statuses model_error_value = true) as K.
  { apply H. vm_compute. reflexivity. }
  vm_compute in K. discriminate K.
Qed.

Lemma success_record_is_model_object_witness :
  ∃ n, (n = 0 ∨ n = 1)%nat ∧
       accepted loads
         (scripted [reply usage_a model_error_text] n (request env0 alice_doc))
         model_error_value usage_a ∧
       is_Some (model_error_value !! "baker_status").
Proof.
  apply (success_record_is_model_object
           (scripted [reply usage_a model_error_text]) loads env0
           alice_doc "alice.txt" w0 model_error_value usage_a
           (analyze_file (scripted [reply usage_a model_error_text]) loads env0
                         alice_doc "alice.txt" w0).2).
  vm_compute. reflexivity.
Defined.

(** Documents enumerated as bob, alice; alice's two calls fail, bob's
    second call succeeds: the report is alice, bob. *)
Lemma report_follows_sorted_names_witness :
  ∃ results tot w',
    script down_then_up loads env0 w0 = (inr (results, tot), w') ∧
    length results = length (dir_glob_txt env0) ∧
    writes (log w') =
      (writes (log w0) ++ [(arg_output env0, JArr (JObj <$> results))])%list ∧
    ∀ i name, ["alice.txt"; "bob.txt"] !! i = Some name →
      ∃ rec, results !! i = Some rec ∧ rec !! "_file" = Some (JStr name).
Proof.
  apply (report_follows_sorted_names down_then_up loads env0 w0 ["alice.txt"; "bob.txt"]).
  - reflexivity.
  - apply perm_swap.
  - repeat constructor.
Defined.

(** A key beyond the five required ones travels into the report. *)
Example extra_key_reaches_report :
  ∃ rec rest tot w',
    script odd_then_down loads env0 w0 = (inr (rec :: rest, tot), w') ∧
    rec !! "confidence" = Some (JInt 1) ∧
    rec !! "_file" = Some (JStr "alice.txt").
Proof. eexists _, _, _, _. split; [vm_compute; reflexivity|]. split; reflexivity. Qed.

End Runs.

(** ** What a run sends, prints and pauses for *)

Section TraceTheory.

Variable client_create : nat → Request → pyexc + Response.
Variable json_loads : string → pyexc + json.
Variable env : Environ.

Lemma sent_app l1 l2 : sent (l1 ++ l2) = (sent l1 ++ sent l2)%list.
Proof. apply omap_app. Qed.
Lemma pauses_app l1 l2 : pauses (l1 ++ l2) = (pauses l1 ++ pauses l2)%list.
Proof. apply omap_app. Qed.
Lemma printed_app l1 l2 : printed (l1 ++ l2) = (printed l1 ++ printed l2)%list.
Proof. apply omap_app. Qed.
Lemma printed_json_app l1 l2 :
  printed_json (l1 ++ l2) = (printed_json l1 ++ printed_json l2)%list.
Proof. apply omap_app. Qed.
Lemma writes_app l1 l2 : writes (l1 ++ l2) = (writes l1 ++ writes l2)%list.
Proof. apply omap_app. Qed.

(** An attempt's prints are prints and nothing else. *)
Lemma attempt_prints_silent label out :
  sent (attempt_prints label out) = [] ∧
  pauses (attempt_prints label out) = [] ∧
  printed_json (attempt_prints label out) = [] ∧
  writes (attempt_prints label out) = [].
Proof.
  destruct out as [e|resp]; [done|]. simpl. by destruct (resp_usage resp).
Qed.

(** The trace of one [analyze_file]: [k] requests, numbered from the
    current count, all for the same document; [k - 1] pauses of one
    second; nothing written. *)
Lemma analyze_trace text label w r w' :
  analyze_file client_create json_loads env text label w = (r, w') →
  ∃ tr k,
    log w' = (log w ++ tr)%list ∧
    calls w' = (calls w + k)%nat ∧
    (k = 1 ∨ k = 2)%nat ∧
    sent tr = (λ i, (i, request env text)) <$> seq (calls w) k ∧
    pauses tr = replicate (k - 1) 1 ∧
    printed_json tr = [] ∧
    writes tr = [].
Proof.
  intros H.
  destruct (analyze_cases client_create json_loads env text label w)
    as [(d & u & _ & E)|[(e1 & d & u & _ & _ & E)|(e1 & e2 & _ & _ & E)]];
    rewrite E in H; injection H as <- <-.
  - exists (EvCreate (calls w) (request env text)
              :: attempt_prints label (client_create (calls w) (request env text))),
           1%nat.
    split; [done|]. split; [simpl; lia|]. split; [by left|].
    unfold sent, pauses, printed_json, writes.
    destruct (client_create (calls w) (request env text)) as [?|r1]; simpl;
      [|destruct (resp_usage r1)]; done.
  - exists (EvCreate (calls w) (request env text)
              :: attempt_prints label (client_create (calls w) (request env text))
              ++ [EvSleep 1]
              ++ EvCreate (S (calls w)) (request env text)
              :: attempt_prints label (client_create (S (calls w)) (request env text)))%list,
           2%nat.
    split; [simpl; by rewrite <- !app_assoc|]. split; [simpl; lia|]. split; [by right|].
    unfold sent, pauses, printed_json, writes.
    destruct (client_create (calls w) (request env text)) as [?|r1]; simpl;
      [|destruct (resp_usage r1)];
      (destruct (client_create (S (calls w)) (request env text)) as [?|r2]; simpl;
       [|destruct (resp_usage r2)]); done.
  - exists (EvCreate (calls w) (request env text)
              :: attempt_prints label (client_create (calls w) (request env text))
              ++ [EvSleep 1]
              ++ EvCreate (S (calls w)) (request env text)
              :: attempt_prints label (client_create (S (calls w)) (request env text)))%list,
           2%nat.
    split; [simpl; by rewrite <- !app_assoc|]. split; [simpl; lia|]. split; [by right|].
    unfold sent, pauses, printed_json, writes.
    destruct (client_create (calls w) (request env text)) as [?|r1]; simpl;
      [|destruct (resp_usage r1)];
      (destruct (client_create (S (calls w)) (request env text)) as [?|r2]; simpl;
       [|destruct (resp_usage r2)]); done.
Qed.

(** The trace of a batch: requests numbered consecutively, each for a
    document of the batch; one request per document plus one per pause;
    every pause one second long; the records printed are the records of the
    report; nothing written. *)
Lemma batch_run_trace files w outs w' :
  batch_run client_create json_loads env files w outs w' →
  ∃ tr,
    log w' = (log w ++ tr)%list ∧
    calls w' = (calls w + length (sent tr))%nat ∧
    (sent tr).*1 = seq (calls w) (length (sent tr)) ∧
    Forall (λ p, ∃ fp, fp ∈ files ∧ p.2 = request env fp.2) (sent tr) ∧
    length (sent tr) = (length files + length (pauses tr))%nat ∧
    (length (pauses tr) ≤ length files)%nat ∧
    Forall (λ secs, secs = 1) (pauses tr) ∧
    printed_json tr = JObj <$> report_of files outs ∧
    writes tr = [].
Proof.
  induction 1 as [w|name text rest w r usage w1 outs w2 E _
                    (tr2 & Hl2 & Hc2 & Hi2 & Hr2 & Hn2 & Hp2 & Hs2 & Hj2 & Hw2)].
  { exists []. rewrite app_nil_r. simpl. repeat split; try done; lia. }
  destruct (analyze_trace _ _ _ _ _ E) as (tr1 & k & Hl1 & Hc1 & Hk & Hs1 & Hp1 & Hj1 & Hw1).
  simpl in Hl2, Hc2, Hi2.
  exists (tr1 ++ [EvPrint (nl ++ "=== " ++ name ++ " ===");
                  EvPrintJson (JObj (<[ "_file" := JStr name ]> r))] ++ tr2)%list.
  assert (length (sent tr1) = k) as Hlen1 by (by rewrite Hs1, length_fmap, length_seq).
  assert (length (pauses tr1) = (k - 1)%nat) as Hlenp1 by (by rewrite Hp1, length_replicate).
  rewrite !sent_app, !pauses_app, !printed_json_app, !writes_app, !length_app.
  change (sent [EvPrint _; EvPrintJson _]) with (@nil (nat * Request)).
  change (pauses [EvPrint _; EvPrintJson _]) with (@nil Z).
  change (writes [EvPrint _; EvPrintJson _]) with (@nil (string * json)).
  change (printed_json [EvPrint ?a; EvPrintJson ?v]) with [v].
  simpl length. rewrite Hlen1, Hlenp1, Hj1, Hw1, Hw2, Hj2.
  split; [rewrite Hl2, Hl1; by rewrite <- !app_assoc|].
  split; [lia|].
  split.
  { rewrite !fmap_app. simpl. rewrite Hi2, Hs1, Hc1.
    rewrite <- list_fmap_compose, list_fmap_id, <- seq_app. done. }
  split.
  { rewrite !Forall_app. split; [|split; [done|]].
    - rewrite Hs1. apply Forall_fmap, Forall_forall. intros i _. simpl.
      exists (name, text). split; [left|done].
    - eapply Forall_impl; [exact Hr2|]. intros p (fp & Hin & ->).
      exists fp. split; [by right|done]. }
  split; [simpl; lia|]. split; [simpl; lia|].
  split.
  { rewrite !Forall_app. split; [|split; [done|done]].
    rewrite Hp1. by apply Forall_replicate. }
  done.
Qed.

End TraceTheory.

Section RunTheory.

Variable client_create : nat → Request → pyexc + Response.
Variable json_loads : string → pyexc + json.
Variable env : Environ.

(** A completed run with its trace, from which the properties below read
    their parts. *)
Lemma script_trace w :
  config_error env = false →
  ∃ outs w' tr,
    script client_create json_loads env w =
      (inr (report_of (sorted (dir_glob_txt env)) outs, sum_usage zero_totals outs), w') ∧
    length outs = length (dir_glob_txt env) ∧
    log w' = (log w ++ tr)%list ∧
    calls w' = (calls w + length (sent tr))%nat ∧
    (sent tr).*1 = seq (calls w) (length (sent tr)) ∧
    Forall (λ p, ∃ fp, fp ∈ dir_glob_txt env ∧ p.2 = request env fp.2) (sent tr) ∧
    length (sent tr) = (length (dir_glob_txt env) + length (pauses tr))%nat ∧
    (length (pauses tr) ≤ length (dir_glob_txt env))%nat ∧
    Forall (λ secs, secs = 1) (pauses tr) ∧
    printed_json tr = JObj <$> report_of (sorted (dir_glob_txt env)) outs ∧
    writes tr = [(arg_output env,
                  JArr (JObj <$> report_of (sorted (dir_glob_txt env)) outs))].
Proof.
  intros Hc. destruct (script_completes client_create json_loads env w Hc)
    as (outs & w1 & Hrun & E).
  destruct (batch_run_trace _ _ _ _ _ _ _ Hrun)
    as (tr & Hl & Hn & Hi & Hr & Hlen & Hp & Hs & Hj & Hw).
  pose proof (batch_run_length _ _ _ _ _ _ _ Hrun) as Hlo.
  rewrite length_sorted in Hlen, Hp, Hlo.
  set (results := report_of (sorted (dir_glob_txt env)) outs) in *.
  set (tot := sum_usage zero_totals outs) in *.
  exists outs, (after_save env results tot w1),
    (tr ++ [EvWrite (arg_output env) (JArr (JObj <$> results));
            EvPrint (nl ++ "Saved: " ++ out_resolved env);
            EvPrint (nl ++ "TOTAL TOKENS: prompt=" ++ str_int (total_prompt tot)
                     ++ " completion=" ++ str_int (total_completion tot)
                     ++ " total=" ++ str_int (total_all tot))])%list.
  rewrite !sent_app, !pauses_app, !printed_json_app, !writes_app.
  change (sent [EvWrite _ _; EvPrint _; EvPrint _]) with (@nil (nat * Request)).
  change (pauses [EvWrite _ _; EvPrint _; EvPrint _]) with (@nil Z).
  change (printed_json [EvWrite _ _; EvPrint _; EvPrint _]) with (@nil json).
  change (writes [EvWrite ?p ?d; EvPrint _; EvPrint _]) with [(p, d)].
  rewrite !app_nil_r, Hw, Hj.
  split; [done|]. split; [done|].
  split; [simpl; rewrite Hl; by rewrite <- app_assoc|].
  split; [done|]. split; [done|].
  split.
  { eapply Forall_impl; [exact Hr|]. intros p (fp & Hin & ->). exists fp.
    split; [|done]. revert Hin. unfold sorted. by rewrite merge_sort_Permutation. }
  done.
Qed.

(** X1. A completed run sends between N and 2N requests for N documents:
    one per document and one more for each pause, and every pause lasts one
    second. *)
Theorem run_request_budget w :
  config_error env = false →
  ∃ res w' tr,
    script client_create json_loads env w = (inr res, w') ∧
    log w' = (log w ++ tr)%list ∧
    calls w' = (calls w + length (sent tr))%nat ∧
    length (sent tr) = (length (dir_glob_txt env) + length (pauses tr))%nat ∧
    (length (dir_glob_txt env) ≤ length (sent tr) ≤ 2 * length (dir_glob_txt env))%nat ∧
    Forall (λ secs, secs = 1) (pauses tr).
Proof.
  intros Hc. destruct (script_trace w Hc)
    as (outs & w' & tr & E & _ & Hl & Hn & _ & _ & Hlen & Hp & Hs & _ & _).
  eexists _, w', tr. repeat split; try done; lia.
Qed.

(** X2. The only requests a run sends are, in the order of their numbers,
    requests for documents of the input directory: the configured model,
    the fixed policy as system message, and the document's text after the
    DOCUMENT line. *)
Theorem run_sends_only_documents w :
  config_error env = false →
  ∃ res w' tr,
    script client_create json_loads env w = (inr res, w') ∧
    log w' = (log w ++ tr)%list ∧
    (sent tr).*1 = seq (calls w) (length (sent tr)) ∧
    Forall (λ p, ∃ name text,
              (name, text) ∈ dir_glob_txt env ∧
              p.2 = {| req_model := default "gpt-4o-mini" (OPENAI_MODEL env);
                       req_system := SYSTEM_PROMPT;
                       req_user := "DOCUMENT:" ++ nl ++ text |}) (sent tr).
Proof.
  intros Hc. destruct (script_trace w Hc)
    as (outs & w' & tr & E & _ & Hl & _ & Hi & Hr & _).
  eexists _, w', tr. repeat split; try done.
  eapply Forall_impl; [exact Hr|]. intros p ([name text] & Hin & ->). eauto.
Qed.

(** X3. What a run prints record by record is what it saves: the values
    printed through [json.dumps] are the records of the report, in order,
    and the one file written holds the same list. *)
Theorem progress_output_matches_report w :
  config_error env = false →
  ∃ results tot w' tr,
    script client_create json_loads env w = (inr (results, tot), w') ∧
    log w' = (log w ++ tr)%list ∧
    printed_json tr = JObj <$> results ∧
    writes tr = [(arg_output env, JArr (printed_json tr))].
Proof.
  intros Hc. destruct (script_trace w Hc)
    as (outs & w' & tr & E & _ & Hl & _ & _ & _ & _ & _ & _ & Hj & Hw).
  eexists _, _, w', tr. rewrite Hj. done.
Qed.

End RunTheory.

(** ** More on a single document *)

Section AttemptEdges.

Variable client_create : nat → Request → pyexc + Response.
Variable json_loads : string → pyexc + json.
Variable env : Environ.

(** X4. The usage of a completion that is then rejected is printed but not
    returned: after a first completion with usage [u1] that fails and a
    second that succeeds with [u2], both token lines are on the output and
    the usage handed to the driver is [u2] alone. *)
Theorem rejected_completion_usage_printed_not_returned
    text label w resp1 u1 e1 d u2 :
  client_create (calls w) (request env text) = inr resp1 →
  resp_usage resp1 = Some u1 →
  rejected json_loads (client_create (calls w) (request env text)) e1 →
  accepted json_loads (client_create (S (calls w)) (request env text)) d u2 →
  ∃ w' tr,
    analyze_file client_create json_loads env text label w
      = (inr (Some (d, Some u2)), w') ∧
    log w' = (log w ++ tr)%list ∧
    printed tr = [tokens_line label u1; tokens_line label u2].
Proof.
  intros Hc Hu H1 H2.
  rewrite (analyze_second_accepted _ _ _ _ _ _ _ _ _ H1 H2).
  destruct H2 as [resp2 s rest Hc2 Hu2 _ _ _].
  eexists _, _. split; [done|]. simpl. rewrite Hc, Hc2. simpl. rewrite Hu, Hu2.
  split; [by rewrite <- !app_assoc|]. done.
Qed.

(** X5. When the last attempt's object lacks a required key, the reason of
    the synthesized record says so, in these words. *)
Theorem missing_key_reason text label w e1 resp u s rest d :
  rejected json_loads (client_create (calls w) (request env text)) e1 →
  client_create (S (calls w)) (request env text) = inr resp →
  resp_usage resp = Some u →
  resp_choices resp = Some s :: rest →
  json_loads s = inr (JObj d) →
  ¬ required ⊆ dom d →
  ∃ r w',
    analyze_file client_create json_loads env text label w = (inr (Some (r, None)), w') ∧
    r !! "baker_status" = Some (JStr "ERROR") ∧
    r !! "reason" = Some (JStr "Processing failure: Invalid schema from model").
Proof.
  intros H1 Hc Hu Hch Hl Hk.
  assert (rejected json_loads (client_create (S (calls w)) (request env text))
            (ValueError "Invalid schema from model")) as H2
    by (by eapply Rej_missing_keys).
  rewrite (analyze_both_rejected _ _ _ _ _ _ _ _ H1 H2).
  eexists _, _. split; [done|]. unfold error_record. by simplify_map_eq.
Qed.

(** X6. Content that parses to JSON which is not an object (a list, a
    string, a number, true, false or null) fails the attempt like any
    other error; on the last attempt the reason names the value's type. *)
Theorem non_object_json_reason text label w e1 resp u s rest v :
  rejected json_loads (client_create (calls w) (request env text)) e1 →
  client_create (S (calls w)) (request env text) = inr resp →
  resp_usage resp = Some u →
  resp_choices resp = Some s :: rest →
  json_loads s = inr v →
  (∀ d, v ≠ JObj d) →
  ∃ r w',
    analyze_file client_create json_loads env text label w = (inr (Some (r, None)), w') ∧
    r !! "baker_status" = Some (JStr "ERROR") ∧
    r !! "reason" =
      Some (JStr ("Processing failure: '" ++ py_type v ++ "' object has no attribute 'keys'")).
Proof.
  intros H1 Hc Hu Hch Hl Hv.
  assert (rejected json_loads (client_create (S (calls w)) (request env text))
            (AttributeError (py_type v) "keys")) as H2
    by (by eapply Rej_not_an_object).
  rewrite (analyze_both_rejected _ _ _ _ _ _ _ _ H1 H2).
  eexists _, _. split; [done|]. unfold error_record. by simplify_map_eq.
Qed.

End AttemptEdges.

(** ** Whole runs *)

Section RunEdges.

Variable client_create : nat → Request → pyexc + Response.
Variable json_loads : string → pyexc + json.
Variable env : Environ.

(** X7. An empty OPENAI_API_KEY counts as a missing one, and the
    credential check comes first: the script stops on it whatever the state
    of the input directory, with nothing sent or written. *)
Theorem empty_api_key_is_missing w :
  OPENAI_API_KEY env = None ∨ OPENAI_API_KEY env = Some "" →
  script client_create json_loads env w =
    (inl (SystemExit
       "Missing OPENAI_API_KEY. Put it in a .env file or set it in your environment."),
     w).
Proof.
  intros H. unfold script, api_key_missing. by destruct H as [-> | ->].
Qed.

Lemma batch_run_all_rejected files w outs w' :
  (∀ n req, ∃ e, rejected json_loads (client_create n req) e) →
  batch_run client_create json_loads env files w outs w' →
  calls w' = (calls w + 2 * length files)%nat ∧
  Forall (λ out, ∃ e, out = (error_record e, None)) outs.
Proof.
  intros Hall. induction 1 as [w|name text rest w r usage w1 outs w2 E _ [IHc IHo]].
  { split; [simpl; lia|done]. }
  destruct (analyze_cases client_create json_loads env text name w)
    as [(d & u & A1 & _)|[(e1 & d & u & _ & A2 & _)|(e1 & e2 & _ & _ & E')]].
  - destruct (Hall (calls w) (request env text)) as [e He].
    destruct (accepted_not_rejected _ _ _ _ _ A1 He).
  - destruct (Hall (S (calls w)) (request env text)) as [e He].
    destruct (accepted_not_rejected _ _ _ _ _ A2 He).
  - rewrite E' in E. injection E as <- <- <-. simpl in IHc. split.
    + simpl. lia.
    + constructor; [eauto|done].
Qed.

Lemma sum_usage_all_absent tot outs :
  Forall (λ out : record * option Usage, ∃ e, out = (error_record e, None)) outs →
  sum_usage tot outs = tot.
Proof.
  unfold sum_usage. induction 1 as [|out outs [e ->] _ IH]; [done|]. simpl. exact IH.
Qed.

(** X8. With the service failing on every request, the run still completes:
    two requests per document, a report of N synthesized ERROR records of
    full shape, and totals left at zero. *)
Theorem run_with_service_down w :
  config_error env = false →
  (∀ n req, ∃ e, rejected json_loads (client_create n req) e) →
  ∃ results w',
    script client_create json_loads env w = (inr (results, zero_totals), w') ∧
    calls w' = (calls w + 2 * length (dir_glob_txt env))%nat ∧
    length results = length (dir_glob_txt env) ∧
    Forall (λ rec : record,
              rec !! "baker_status" = Some (JStr "ERROR") ∧
              rec !! "evidence" = Some (JArr []) ∧
              well_shaped rec = true) results.
Proof.
  intros Hc Hall.
  destruct (script_completes client_create json_loads env w Hc)
    as (outs & w1 & Hrun & E).
  destruct (batch_run_all_rejected _ _ _ _ Hall Hrun) as [Hcalls Houts].
  pose proof (batch_run_length _ _ _ _ _ _ _ Hrun) as Hlen.
  rewrite length_sorted in Hcalls, Hlen.
  rewrite (sum_usage_all_absent _ _ Houts) in E.
  eexists _, _. split; [exact E|]. split; [done|].
  split; [rewrite report_of_length; [apply length_sorted|by rewrite length_sorted]|].
  apply Forall_forall. intros rec (fp & out & -> & _ & Hout)%report_of_elem.
  rewrite Forall_forall in Houts. destruct (Houts _ Hout) as [e ->]. done.
Qed.

Lemma batch_run_all_accepted files w outs w' :
  (∀ n req, ∃ d u, accepted json_loads (client_create n req) d u) →
  batch_run client_create json_loads env files w outs w' →
  calls w' = (calls w + length files)%nat ∧
  ∀ i fp, files !! i = Some fp →
    ∃ d u, accepted json_loads (client_create (calls w + i) (request env fp.2)) d u ∧
           outs !! i = Some (d, Some u).
Proof.
  intros Hall. induction 1 as [w|name text rest w r usage w1 outs w2 E _ [IHc IHo]].
  { split; [simpl; lia|]. intros i fp Hi. done. }
  destruct (analyze_cases client_create json_loads env text name w)
    as [(d & u & A1 & E')|[(e1 & d & u & R1 & _ & _)|(e1 & e2 & R1 & _ & _)]].
  - rewrite E' in E. injection E as <- <- <-. simpl in IHc, IHo. split; [simpl; lia|].
    intros [|i] fp Hi; simpl in Hi.
    + injection Hi as <-. exists d, u. rewrite Nat.add_0_r. done.
    + destruct (IHo i fp Hi) as (d' & u' & A & Ho). exists d', u'.
      replace (calls w + S i)%nat with (S (calls w) + i)%nat by lia. done.
  - destruct (Hall (calls w) (request env text)) as (d' & u' & A).
    destruct (accepted_not_rejected _ _ _ _ _ A R1).
  - destruct (Hall (calls w) (request env text)) as (d' & u' & A).
    destruct (accepted_not_rejected _ _ _ _ _ A R1).
Qed.

(** X9. With every answer acceptable, a run sends exactly one request per
    document and never pauses; the i-th record of the report is the object
    the i-th request's answer parsed to, under the i-th name in sorted
    order. *)
Theorem run_with_service_up w :
  config_error env = false →
  (∀ n req, ∃ d u, accepted json_loads (client_create n req) d u) →
  ∃ results tot w' tr,
    script client_create json_loads env w = (inr (results, tot), w') ∧
    log w' = (log w ++ tr)%list ∧
    calls w' = (calls w + length (dir_glob_txt env))%nat ∧
    pauses tr = [] ∧
    ∀ i fp, sorted (dir_glob_txt env) !! i = Some fp →
      ∃ d u, accepted json_loads (client_create (calls w + i) (request env fp.2)) d u ∧
             results !! i = Some (<[ "_file" := JStr fp.1 ]> d).
Proof.
  intros Hc Hall.
  destruct (script_completes client_create json_loads env w Hc)
    as (outs & w1 & Hrun & E).
  destruct (batch_run_all_accepted _ _ _ _ Hall Hrun) as [Hcalls Houts].
  destruct (batch_run_trace _ _ _ _ _ _ _ Hrun)
    as (tr & Hl & Hn & _ & _ & Hlen & _ & _ & _ & _).
  rewrite length_sorted in Hcalls, Hlen.
  eexists _, _, _, (tr ++ _)%list. split; [exact E|].
  split; [simpl; rewrite Hl; symmetry; apply app_assoc|].
  split; [done|]. split.
  - rewrite pauses_app. simpl.
    assert (length (pauses tr) = 0%nat) as Hz by lia.
    apply nil_length_inv in Hz. by rewrite Hz.
  - intros i fp Hi. destruct (Houts i fp Hi) as (d & u & A & Ho).
    exists d, u. split; [done|]. unfold report_of.
    apply lookup_zip_with_Some. exists fp, (d, Some u). done.
Qed.

Lemma batch_run_usage_source files w outs w' :
  batch_run client_create json_loads env files w outs w' →
  Forall (λ out : record * option Usage,
            ∀ u, out.2 = Some u →
                 ∃ n req resp, client_create n req = inr resp ∧ resp_usage resp = Some u)
         outs.
Proof.
  induction 1 as [w|name text rest w r usage w1 outs w2 E _ IH]; constructor; [|done].
  simpl. intros u ->.
  destruct (analyze_cases client_create json_loads env text name w)
    as [(d & u0 & A & E')|[(e1 & d & u0 & _ & A & E')|(e1 & e2 & _ & _ & E')]];
    rewrite E' in E; simplify_eq; destruct A; eauto.
Qed.

Lemma add_usage_adds_up tot u :
  totals_add_up tot →
  total_tokens u = prompt_tokens u + completion_tokens u →
  totals_add_up (add_usage tot u).
Proof. unfold totals_add_up, add_usage. simpl. lia. Qed.

(** X10. The three totals are kept as three separate sums, and they stay
    consistent when the service's figures are: if every completion reports
    total = prompt + completion, so do the driver's totals. *)
Theorem totals_stay_consistent files results tot w res tot' w' :
  (∀ n req resp u,
     client_create n req = inr resp → resp_usage resp = Some u →
     total_tokens u = prompt_tokens u + completion_tokens u) →
  totals_add_up tot →
  batch_loop client_create json_loads env files results tot w = (inr (res, tot'), w') →
  totals_add_up tot'.
Proof.
  intros Hsvc Htot E.
  destruct (batch_loop_run client_create json_loads env files results tot w)
    as (outs & w1 & Hrun & E'). rewrite E' in E. injection E as _ <- _.
  pose proof (batch_run_usage_source _ _ _ _ Hrun) as Hsrc.
  clear E' Hrun. revert tot Htot. unfold sum_usage.
  induction Hsrc as [|[r [u|]] outs Hout _ IH]; intros tot Htot; simpl; [done| |by apply IH].
  apply IH, add_usage_adds_up; [done|].
  destruct (Hout u eq_refl) as (n & req & resp & Hc & Hu). eauto.
Qed.

Lemma NoDup_fst_agree (l : list (string * string)) a b1 b2 :
  NoDup l.*1 → (a, b1) ∈ l → (a, b2) ∈ l → b1 = b2.
Proof.
  induction l as [|[a' b'] l IH]; simpl; intros Hnd H1 H2; [by inv H1|].
  apply NoDup_cons in Hnd as [Hnotin Hnd].
  apply elem_of_cons in H1 as [H1|H1]; apply elem_of_cons in H2 as [H2|H2].
  - congruence.
  - injection H1 as <- <-. destruct Hnotin.
    apply list_elem_of_fmap. by exists (a, b2).
  - injection H2 as <- <-. destruct Hnotin.
    apply list_elem_of_fmap. by exists (a, b1).
  - eauto.
Qed.

(** With distinct names, [sorted] does not depend on the order in which
    the entries come. *)
Lemma sorted_perm_eq l1 l2 :
  l1 ≡ₚ l2 → NoDup l2.*1 → sorted l1 = sorted l2.
Proof.
  intros Hp Hnd. apply (StronglySorted_unique_strong path_le).
  - intros [a1 b1] [a2 b2] H1 H2 Hle1 Hle2.
    unfold sorted in H1, H2. rewrite merge_sort_Permutation in H1, H2.
    rewrite Hp in H1. unfold path_le in *. simpl in *.
    pose proof (anti_symm name_le _ _ Hle1 Hle2) as ->.
    f_equal. eauto using NoDup_fst_agree.
  - apply StronglySorted_merge_sort; apply _.
  - apply StronglySorted_merge_sort; apply _.
  - unfold sorted. by rewrite !merge_sort_Permutation.
Qed.

Lemma batch_loop_with_glob glob files :
  ∀ results tot w,
    batch_loop client_create json_loads (with_glob env glob) files results tot w
    = batch_loop client_create json_loads env files results tot w.
Proof. induction files as [|fp rest IH]; intros; reflexivity. Qed.

(** X11. A run does not depend on the order in which the operating system
    lists the directory: for entries with distinct names, two listings of
    the same entries give the same result and the same trace. *)
Theorem run_independent_of_enumeration files w :
  files ≡ₚ dir_glob_txt env →
  NoDup (dir_glob_txt env).*1 →
  script client_create json_loads (with_glob env files) w
  = script client_create json_loads env w.
Proof.
  intros Hp Hnd. unfold script, main. simpl.
  change (api_key_missing (with_glob env files)) with (api_key_missing env).
  rewrite (sorted_perm_eq _ _ Hp Hnd).
  destruct (api_key_missing env); [done|].
  destruct (dir_exists env); [|done]. simpl.
  destruct (sorted (dir_glob_txt env)) as [|fp rest]; [done|].
  unfold mbind at 1 3. unfold Py_bind, py_bind at 1 3.
  by rewrite batch_loop_with_glob.
Qed.

End RunEdges.

(** ** The first version: no retry, no validation *)

Section V1Theory.

Variable client_create : nat → Request → pyexc + Response.
Variable json_loads : string → pyexc + json.
Variable env : Environ.

Lemma V1_answered_or_raises out :
  (∃ d, V1.answered json_loads out d) ∨ (∃ e, V1.raises json_loads out e).
Proof.
  destruct out as [e|resp]; [right; eexists; by eapply V1.Raises_call|].
  destruct (resp_choices resp) as [|[s|] rest] eqn:Hc;
    [right; eexists; by eapply V1.Raises_no_choice
    |
    |right; eexists; by eapply V1.Raises_no_content].
  destruct (json_loads s) as [e|v] eqn:Hl;
    [right; eexists; by eapply V1.Raises_parse|].
  destruct v as [| | | | | |d];
    try (right; eexists; by eapply V1.Raises_setitem).
  left. exists d. by econstructor.
Qed.

Lemma V1_step_answered name text rest results w d :
  V1.answered json_loads (client_create (calls w) (V1.request env text)) d →
  V1.batch_loop client_create json_loads env ((name, text) :: rest) results w =
  V1.batch_loop client_create json_loads env rest
    (results ++ [<[ "_file" := JStr name ]> d])
    (after_report name d (V1_after_call env text w)).
Proof.
  intros [resp s rest' Hc Hch Hl]. simpl.
  unfold V1.analyze_file, mbind, Py_bind, py_bind, create, print, emit.
  rewrite Hc. simpl. rewrite Hch. simpl. rewrite Hl. simpl.
  unfold after_report, V1_after_call. simpl. by rewrite <- !app_assoc.
Qed.

Lemma V1_step_raises name text rest results w e :
  V1.raises json_loads (client_create (calls w) (V1.request env text)) e →
  V1.batch_loop client_create json_loads env ((name, text) :: rest) results w =
  (inl (Exception e), V1_after_call env text w).
Proof.
  intros Hr. simpl.
  unfold V1.analyze_file, mbind, Py_bind, py_bind, create, V1_after_call.
  destruct Hr as [? Ho|? Ho Hc|? ? Ho Hc|? ? ? ? Ho Hc Hl|? ? ? v Ho Hc Hl Hv];
    rewrite Ho; simpl; try done; rewrite Hc; simpl; try done; rewrite Hl; simpl; try done.
  destruct v; try done. by destruct (Hv d).
Qed.

Lemma V1_answered_not_raises out d e :
  V1.answered json_loads out d → V1.raises json_loads out e → False.
Proof.
  intros [resp s rest -> Hc Hl] Hr.
  inversion Hr as [? Ho|? Ho Hc'|? ? Ho Hc'|? ? ? ? Ho Hc' Hl'|? ? ? v Ho Hc' Hl' Hv];
    try discriminate Ho; injection Ho as <-; congruence.
Qed.

Lemma V1_raises_inj out e e' :
  V1.raises json_loads out e → V1.raises json_loads out e' → e = e'.
Proof.
  intros H1 H2.
  destruct H1; destruct H2; subst;
    repeat match goal with
           | H : inr _ = inr _ |- _ => injection H as <-
           | H : inl _ = inl _ |- _ => injection H as <-
           | H1 : ?x = _, H2 : ?x = _ |- _ => rewrite H1 in H2
           | H : _ :: _ = _ :: _ |- _ => injection H as <- <-
           end;
    try done; congruence.
Qed.

(** The loop, whichever way it ends: it writes nothing; if it returns, it
    sent one request per document and appended each answer's object under
    the document's name; if it raises, a document's one call failed, the
    documents before it were answered, and no request went out after. *)
Lemma V1_batch_loop_spec files :
  ∀ results w r w',
    V1.batch_loop client_create json_loads env files results w = (r, w') →
    ∃ tr,
      log w' = (log w ++ tr)%list ∧ writes tr = [] ∧
      match r with
      | inr res =>
          calls w' = (calls w + length files)%nat ∧
          ∃ new, res = (results ++ new)%list ∧ length new = length files ∧
            ∀ i fp, files !! i = Some fp →
              ∃ d, V1.answered json_loads
                     (client_create (calls w + i) (V1.request env fp.2)) d ∧
                   new !! i = Some (<[ "_file" := JStr fp.1 ]> d)
      | inl x =>
          ∃ k fp e,
            files !! k = Some fp ∧ x = Exception e ∧
            V1.raises json_loads (client_create (calls w + k) (V1.request env fp.2)) e ∧
            calls w' = (calls w + S k)%nat
      end.
Proof.
  induction files as [|[name text] rest IH]; intros results w r w' E.
  { injection E as <- <-. exists []. rewrite !app_nil_r. split; [done|]. split; [done|].
    split; [simpl; lia|]. exists []. by rewrite app_nil_r. }
  destruct (V1_answered_or_raises (client_create (calls w) (V1.request env text)))
    as [[d A]|[e R]].
  - rewrite (V1_step_answered _ _ _ _ _ _ A) in E.
    destruct (IH _ _ _ _ E) as (tr & Hl & Hw & Hr).
    exists ([EvCreate (calls w) (V1.request env text)]
            ++ [EvPrint (nl ++ "=== " ++ name ++ " ===");
                EvPrintJson (JObj (<[ "_file" := JStr name ]> d))] ++ tr)%list.
    split; [rewrite Hl; simpl; by rewrite <- !app_assoc|].
    split; [by rewrite !writes_app, Hw|].
    destruct r as [x|res].
    + destruct Hr as (k & fp & e & Hk & -> & R & Hc). exists (S k), fp, e.
      simpl in *. replace (calls w + S k)%nat with (S (calls w + k))%nat by lia.
      repeat split; try done. lia.
    + destruct Hr as (Hc & new & -> & Hlen & Hnew). simpl in Hc. split; [simpl; lia|].
      exists ((<[ "_file" := JStr name ]> d) :: new). rewrite <- app_assoc.
      split; [done|]. split; [simpl; lia|].
      intros [|i] fp Hi; simpl in Hi.
      * injection Hi as <-. exists d. rewrite Nat.add_0_r. done.
      * destruct (Hnew i fp Hi) as (d' & A' & Hn). exists d'. simpl in A'.
        replace (calls w + S i)%nat with (S (calls w + i))%nat by lia. done.
  - rewrite (V1_step_raises _ _ _ _ _ _ R) in E. injection E as <- <-.
    exists [EvCreate (calls w) (V1.request env text)]. split; [done|]. split; [done|].
    exists 0%nat, (name, text), e. rewrite Nat.add_0_r. repeat split; try done.
    simpl. lia.
Qed.

Lemma V1_batch_loop_failure name text rest e pre :
  ∀ results w,
    (∀ i fp, pre !! i = Some fp →
       ∃ d, V1.answered json_loads (client_create (calls w + i) (V1.request env fp.2)) d) →
    V1.raises json_loads (client_create (calls w + length pre) (V1.request env text)) e →
    ∃ w', V1.batch_loop client_create json_loads env (pre ++ (name, text) :: rest) results w
            = (inl (Exception e), w') ∧
          calls w' = (calls w + S (length pre))%nat.
Proof.
  induction pre as [|[n0 t0] pre IH]; intros results w Hpre Hr.
  { simpl in Hr. rewrite Nat.add_0_r in Hr. simpl app.
    rewrite (V1_step_raises _ _ _ _ _ _ Hr). eexists. split; [done|]. simpl. lia. }
  destruct (Hpre 0%nat (n0, t0) eq_refl) as [d A]. rewrite Nat.add_0_r in A. simpl in A.
  simpl app. rewrite (V1_step_answered _ _ _ _ _ _ A).
  destruct (IH (results ++ [<[ "_file" := JStr n0 ]> d])%list
              (after_report n0 d (V1_after_call env t0 w))) as (w' & E & Hc).
  - intros i fp Hi. destruct (Hpre (S i) fp Hi) as [d' A']. exists d'. simpl.
    replace (S (calls w + i))%nat with (calls w + S i)%nat by lia. done.
  - simpl. simpl in Hr.
    replace (S (calls w + length pre))%nat with (calls w + S (length pre))%nat by lia. done.
  - exists w'. split; [done|]. simpl in Hc. simpl. lia.
Qed.

Lemma V1_script_runs w :
  config_error env = false →
  V1.script client_create json_loads env w =
    match V1.batch_loop client_create json_loads env (sorted (dir_glob_txt env)) [] w with
    | (inl x, w1) => (inl x, w1)
    | (inr res, w1) =>
        (inr res,
         {| calls := calls w1;
            log := log w1 ++ [EvWrite "results.json" (JArr (JObj <$> res));
                              EvPrint (nl ++ "Saved: " ++ out_resolved env)] |})
    end.
Proof.
  unfold config_error, V1.script, V1.main. intros H.
  destruct (api_key_missing env); [done|].
  destruct (dir_exists env); [|done]. simpl in *.
  apply bool_decide_eq_false_1 in H.
  destruct (sorted (dir_glob_txt env)) as [|fp rest] eqn:Hs.
  { apply (proj1 (sorted_nil_iff _)) in Hs. contradiction. }
  unfold mbind at 1. unfold Py_bind, py_bind at 1.
  destruct (V1.batch_loop client_create json_loads env (fp :: rest) [] w) as [[x|res] w1];
    [done|].
  unfold mbind, Py_bind, py_bind, print, emit. simpl. by rewrite <- !app_assoc.
Qed.

(** X12. The first version writes its report only when every document
    went through: a run that ends in an exception or an exit has written
    nothing, and a run that returns has written the one file with all N
    records, after exactly N requests. *)
Theorem V1_report_only_on_completion w :
  ∃ tr,
    log (V1.script client_create json_loads env w).2 = (log w ++ tr)%list ∧
    match (V1.script client_create json_loads env w).1 with
    | inl _ => writes tr = []
    | inr results =>
        writes tr = [("results.json", JArr (JObj <$> results))] ∧
        length results = length (dir_glob_txt env) ∧
        calls (V1.script client_create json_loads env w).2
          = (calls w + length (dir_glob_txt env))%nat
    end.
Proof.
  destruct (config_error env) eqn:Hc.
  - exists []. rewrite app_nil_r.
    unfold config_error in Hc. unfold V1.script, V1.main.
    destruct (api_key_missing env); [done|].
    destruct (dir_exists env); [|done]. simpl in *.
    apply bool_decide_eq_true_1 in Hc. by rewrite Hc.
  - rewrite (V1_script_runs w Hc).
    destruct (V1.batch_loop client_create json_loads env (sorted (dir_glob_txt env)) [] w)
      as [r w1] eqn:E.
    destruct (V1_batch_loop_spec _ _ _ _ _ E) as (tr & Hl & Hw & Hr).
    destruct r as [x|res].
    + exists tr. done.
    + destruct Hr as (Hcalls & new & -> & Hlen & _). rewrite length_sorted in Hcalls, Hlen.
      eexists (tr ++ _)%list. simpl. split; [rewrite Hl; symmetry; apply app_assoc|].
      rewrite writes_app, Hw. done.
Qed.

(** X13. In the first version one failing document ends the run: if the
    documents before it were answered and its one call fails with [e]
    (the call raises, the completion has no usable content, the content
    does not parse, or it parses to something that is not an object), the
    script ends with [e], the later documents are never requested, and no
    report is written. *)
Theorem V1_first_failure_aborts_run w pre name text rest e :
  config_error env = false →
  sorted (dir_glob_txt env) = (pre ++ (name, text) :: rest)%list →
  (∀ i fp, pre !! i = Some fp →
     ∃ d, V1.answered json_loads (client_create (calls w + i) (V1.request env fp.2)) d) →
  V1.raises json_loads (client_create (calls w + length pre) (V1.request env text)) e →
  ∃ w',
    V1.script client_create json_loads env w = (inl (Exception e), w') ∧
    calls w' = (calls w + S (length pre))%nat ∧
    writes (log w') = writes (log w).
Proof.
  intros Hc Hs Hpre Hr. rewrite (V1_script_runs w Hc), Hs.
  destruct (V1_batch_loop_failure name text rest e pre [] w Hpre Hr) as (w' & E & Hcalls).
  destruct (V1_batch_loop_spec _ _ _ _ _ E) as (tr & Hl & Hw & _).
  rewrite E. exists w'. split; [done|]. split; [done|].
  rewrite Hl, writes_app, Hw. by rewrite app_nil_r.
Qed.

(** X14. In the first version a record of the report is the object the
    document's one answer parsed to, with the file name added: nothing is
    required of its keys, and usage is never read. *)
Theorem V1_report_records w results w' :
  V1.script client_create json_loads env w = (inr results, w') →
  length results = length (dir_glob_txt env) ∧
  ∀ i fp, sorted (dir_glob_txt env) !! i = Some fp →
    ∃ d, V1.answered json_loads (client_create (calls w + i) (V1.request env fp.2)) d ∧
         results !! i = Some (<[ "_file" := JStr fp.1 ]> d).
Proof.
  intros E.
  destruct (config_error env) eqn:Hc.
  { exfalso. unfold config_error in Hc. unfold V1.script, V1.main in E.
    destruct (api_key_missing env); [done|].
    destruct (dir_exists env); [|done]. simpl in *.
    apply bool_decide_eq_true_1 in Hc. by rewrite Hc in E. }
  rewrite (V1_script_runs w Hc) in E.
  destruct (V1.batch_loop client_create json_loads env (sorted (dir_glob_txt env)) [] w)
    as [[x|res] w1] eqn:E'; [done|]. injection E as <- _.
  destruct (V1_batch_loop_spec _ _ _ _ _ E') as (tr & _ & _ & _ & new & -> & Hlen & Hnew).
  rewrite length_sorted in Hlen. done.
Qed.

End V1Theory.

(** ** The further properties on concrete runs *)

Section Runs2.

Import Fixtures Fixtures2.

Lemma run_request_budget_witness :
  ∃ res w' tr,
    script down_then_up Fixtures.loads env0 w0 = (inr res, w') ∧
    log w' = (log w0 ++ tr)%list ∧
    calls w' = (calls w0 + length (sent tr))%nat ∧
    length (sent tr) = (length (dir_glob_txt env0) + length (pauses tr))%nat ∧
    (length (dir_glob_txt env0) ≤ length (sent tr) ≤ 2 * length (dir_glob_txt env0))%nat ∧
    Forall (λ secs, secs = 1) (pauses tr).
Proof. apply (run_request_budget down_then_up Fixtures.loads env0 w0). reflexivity. Defined.

Lemma run_sends_only_documents_witness :
  ∃ res w' tr,
    script down_then_up Fixtures.loads env0 w0 = (inr res, w') ∧
    log w' = (log w0 ++ tr)%list ∧
    (sent tr).*1 = seq (calls w0) (length (sent tr)) ∧
    Forall (λ p, ∃ name text,
              (name, text) ∈ dir_glob_txt env0 ∧
              p.2 = {| req_model := default "gpt-4o-mini" (OPENAI_MODEL env0);
                       req_system := SYSTEM_PROMPT;
                       req_user := "DOCUMENT:" ++ nl ++ text |}) (sent tr).
Proof. apply (run_sends_only_documents down_then_up Fixtures.loads env0 w0). reflexivity. Defined.

Lemma progress_output_matches_report_witness :
  ∃ results tot w' tr,
    script down_then_up Fixtures.loads env0 w0 = (inr (results, tot), w') ∧
    log w' = (log w0 ++ tr)%list ∧
    printed_json tr = JObj <$> results ∧
    writes tr = [(arg_output env0, JArr (printed_json tr))].
Proof.
  apply (progress_output_matches_report down_then_up Fixtures.loads env0 w0). reflexivity.
Defined.

(** Decide a closed statement about concrete records by evaluation. *)
Ltac by_eval :=
  match goal with
  | |- ¬ ?P => apply (bool_decide_eq_false_1 P)
  | |- ?P => apply (bool_decide_eq_true_1 P)
  end; vm_compute; reflexivity.

Lemma rejected_completion_usage_printed_not_returned_witness :
  ∃ w' tr,
    analyze_file (scripted [reply usage_a no_reason_text; reply usage_b alice_text])
                 Fixtures.loads env0 alice_doc "alice.txt" w0
      = (inr (Some (alice_value, Some usage_b)), w') ∧
    log w' = (log w0 ++ tr)%list ∧
    printed tr = [tokens_line "alice.txt" usage_a; tokens_line "alice.txt" usage_b].
Proof.
  apply (rejected_completion_usage_printed_not_returned
           (scripted [reply usage_a no_reason_text; reply usage_b alice_text])
           Fixtures.loads env0 alice_doc "alice.txt" w0
           {| resp_usage := Some usage_a; resp_choices := [Some no_reason_text] |}
           usage_a (ValueError "Invalid schema from model") alice_value usage_b).
  - reflexivity.
  - reflexivity.
  - eapply Rej_missing_keys; [reflexivity|reflexivity|reflexivity|reflexivity|]. by_eval.
  - eapply Accepted; [reflexivity|reflexivity|reflexivity|vm_compute; reflexivity|]. by_eval.
Defined.

Lemma missing_key_reason_witness :
  ∃ r w',
    analyze_file (scripted [inl ConnectionError; reply usage_a no_reason_text])
                 Fixtures.loads env0 alice_doc "alice.txt" w0 = (inr (Some (r, None)), w') ∧
    r !! "baker_status" = Some (JStr "ERROR") ∧
    r !! "reason" = Some (JStr "Processing failure: Invalid schema from model").
Proof.
  apply (missing_key_reason
           (scripted [inl ConnectionError; reply usage_a no_reason_text])
           Fixtures.loads env0 alice_doc "alice.txt" w0 ConnectionError
           {| resp_usage := Some usage_a; resp_choices := [Some no_reason_text] |}
           usage_a no_reason_text [] no_reason_value).
  - eapply Rej_call_raised. reflexivity.
  - reflexivity.
  - reflexivity.
  - reflexivity.
  - vm_compute. reflexivity.
  - by_eval.
Defined.

Lemma non_object_json_reason_witness :
  ∃ r w',
    analyze_file short_then_list Fixtures2.loads env0 alice_doc "alice.txt" w0
      = (inr (Some (r, None)), w') ∧
    r !! "baker_status" = Some (JStr "ERROR") ∧
    r !! "reason" =
      Some (JStr ("Processing failure: '" ++ py_type (JArr [JInt 1; JInt 2])
                  ++ "' object has no attribute 'keys'")).
Proof.
  apply (non_object_json_reason short_then_list Fixtures2.loads env0 alice_doc "alice.txt" w0
           (ValueError "Invalid schema from model")
           {| resp_usage := Some usage_b; resp_choices := [Some list_text] |}
           usage_b list_text [] (JArr [JInt 1; JInt 2])).
  - eapply Rej_missing_keys; [reflexivity|reflexivity|reflexivity|vm_compute; reflexivity|].
    by_eval.
  - reflexivity.
  - reflexivity.
  - reflexivity.
  - vm_compute. reflexivity.
  - intros d. discriminate.
Defined.

Lemma empty_api_key_is_missing_witness :
  script always_alice Fixtures.loads env_empty_key w0 =
    (inl (SystemExit
       "Missing OPENAI_API_KEY. Put it in a .env file or set it in your environment."),
     w0).
Proof.
  apply (empty_api_key_is_missing always_alice Fixtures.loads env_empty_key w0).
  right. reflexivity.
Defined.

Lemma run_with_service_down_witness :
  ∃ results w',
    script always_down Fixtures.loads env0 w0 = (inr (results, zero_totals), w') ∧
    calls w' = (calls w0 + 2 * length (dir_glob_txt env0))%nat ∧
    length results = length (dir_glob_txt env0) ∧
    Forall (λ rec : record,
              rec !! "baker_status" = Some (JStr "ERROR") ∧
              rec !! "evidence" = Some (JArr []) ∧
              well_shaped rec = true) results.
Proof.
  apply (run_with_service_down always_down Fixtures.loads env0 w0).
  - reflexivity.
  - intros n req. exists ConnectionError. eapply Rej_call_raised. reflexivity.
Defined.

Lemma always_alice_accepted n req :
  accepted Fixtures.loads (always_alice n req) alice_value usage_a.
Proof.
  eapply Accepted; [reflexivity|reflexivity|reflexivity|vm_compute; reflexivity|]. by_eval.
Defined.

Lemma run_with_service_up_witness :
  ∃ results tot w' tr,
    script always_alice Fixtures.loads env0 w0 = (inr (results, tot), w') ∧
    log w' = (log w0 ++ tr)%list ∧
    calls w' = (calls w0 + length (dir_glob_txt env0))%nat ∧
    pauses tr = [] ∧
    ∀ i fp, sorted (dir_glob_txt env0) !! i = Some fp →
      ∃ d u, accepted Fixtures.loads (always_alice (calls w0 + i) (request env0 fp.2)) d u ∧
             results !! i = Some (<[ "_file" := JStr fp.1 ]> d).
Proof.
  apply (run_with_service_up always_alice Fixtures.loads env0 w0).
  - reflexivity.
  - intros n req. exists alice_value, usage_a. apply always_alice_accepted.
Defined.

Lemma totals_stay_consistent_witness :
  totals_add_up {| total_prompt := 420; total_completion := 80; total_all := 500 |}.
Proof.
  apply (totals_stay_consistent always_alice Fixtures.loads env0
           (dir_glob_txt env0) [] zero_totals w0
           [<[ "_file" := JStr "bob.txt" ]> alice_value;
            <[ "_file" := JStr "alice.txt" ]> alice_value]
           {| total_prompt := 420; total_completion := 80; total_all := 500 |}
           (batch_loop always_alice Fixtures.loads env0
              (dir_glob_txt env0) [] zero_totals w0).2).
  - intros n req resp u [= <-] [= <-]. reflexivity.
  - reflexivity.
  - vm_compute. reflexivity.
Defined.

Lemma run_independent_of_enumeration_witness :
  script down_then_up Fixtures.loads (with_glob env0 (reverse (dir_glob_txt env0))) w0
  = script down_then_up Fixtures.loads env0 w0.
Proof.
  apply (run_independent_of_enumeration down_then_up Fixtures.loads env0
           (reverse (dir_glob_txt env0)) w0).
  - apply perm_swap.
  - by_eval.
Defined.

(** In the first version the answer short of a key is taken as it is; the
    second document's call then fails and ends the run. *)
Lemma V1_first_failure_aborts_run_witness :
  ∃ w',
    V1.script short_then_down Fixtures.loads env0 w0 = (inl (Exception ConnectionError), w') ∧
    calls w' = (calls w0 + 2)%nat ∧
    writes (log w') = writes (log w0).
Proof.
  apply (V1_first_failure_aborts_run short_then_down Fixtures.loads env0 w0
           [("alice.txt", alice_doc)] "bob.txt"
           "Bob works as a baker but spends all day doing paperwork." []
           ConnectionError).
  - reflexivity.
  - vm_compute. reflexivity.
  - intros [|i] fp Hi; [|destruct i; discriminate Hi]. injection Hi as <-.
    exists no_reason_value. eapply V1.Answered; [reflexivity|reflexivity|].
    vm_compute. reflexivity.
  - eapply V1.Raises_call. reflexivity.
Defined.

Lemma V1_report_records_witness :
  length [<[ "_file" := JStr "alice.txt" ]> alice_value;
          <[ "_file" := JStr "bob.txt" ]> alice_value] = length (dir_glob_txt env0) ∧
  ∀ i fp, sorted (dir_glob_txt env0) !! i = Some fp →
    ∃ d, V1.answered Fixtures.loads (always_alice (calls w0 + i) (V1.request env0 fp.2)) d ∧
         [<[ "_file" := JStr "alice.txt" ]> alice_value;
          <[ "_file" := JStr "bob.txt" ]> alice_value] !! i
           = Some (<[ "_file" := JStr fp.1 ]> d).
Proof.
  apply (V1_report_records always_alice Fixtures.loads env0 w0 _
           (V1.script always_alice Fixtures.loads env0 w0).2).
  vm_compute. reflexivity.
Defined.

End Runs2.

(** ** The driver with its file reads *)

Section IOTheory.

Variable client_create : nat → Request → pyexc + Response.
Variable json_loads : string → pyexc + json.
Variable env : Environ.
Variable read_text : string → pyexc + string.









End IOTheory.

(** ** Two claims on concrete runs *)

Section Runs3.

Import Fixtures Fixtures2 Fixtures3.

(** C2 as stated fails: after a failed first attempt, a second completion
    whose content is the full five-key object but which carries no usage
    does not come back; the attempt fails at the usage print, before the
    content is parsed, and the synthesized record is returned. *)
Lemma second_attempt_without_usage_fails :
  ¬ (∀ client_create json_loads env text label w e1 resp s rest d,
       rejected json_loads (client_create (calls w) (request env text)) e1 →
       client_create (S (calls w)) (request env text) = inr resp →
       resp_choices resp = Some s :: rest →
       json_loads s = inr (JObj d) →
       required ⊆ dom d →
       ∃ w', analyze_file client_create json_loads env text label w
               = (inr (Some (d, resp_usage resp)), w')).
Proof.
  intros H.
  destruct (H short_then_no_usage Fixtures.loads env0 alice_doc "alice.txt" w0
              (ValueError "Invalid schema from model")
              {| resp_usage := None; resp_choices := [Some alice_text] |}
              alice_text [] alice_value) as [w' E].
  - eapply Rej_missing_keys; [reflexivity|reflexivity|reflexivity|reflexivity|].
    apply (bool_decide_eq_false_1 (required ⊆ dom no_reason_value)).
    vm_compute. reflexivity.
  - reflexivity.
  - reflexivity.
  - vm_compute. reflexivity.
  - apply (bool_decide_eq_true_1 (required ⊆ dom alice_value)). vm_compute. reflexivity.
  - assert (analyze_file short_then_no_usage Fixtures.loads env0 alice_doc "alice.txt" w0
            = (inr (Some (error_record (AttributeError "NoneType" "prompt_tokens"), None)),
               (analyze_file short_then_no_usage Fixtures.loads env0
                             alice_doc "alice.txt" w0).2)) as E'
      by (vm_compute; reflexivity).
    rewrite E' in E.
    apply (f_equal (λ p : (exn + option (record * option Usage)) * World,
                      match p.1 with
                      | inr (Some (r, _)) => r !! "baker_status"
                      | _ => None
                      end)) in E.
    vm_compute in E. discriminate E.
Qed.


End Runs3.
